(** * adam6xxx: a driver for ADAM-6000 series Modbus-TCP I/O modules

    A shallow embedding of [adam6xxx/__init__.py].  The Python methods of
    [ADAM6XXX] become functions in a state-and-exception monad.  The Modbus
    client ([pymodbus.client.ModbusTcpClient]) is an external collaborator: it
    is a record of response functions, each answering from the history of the
    operations issued so far, so that every theorem holds for every
    deterministic transport.  Each operation handed to the client, and each
    [time.sleep], is appended to a log carried by the state; "no transport
    operation is issued" is "the log is unchanged".  Where the behaviour of
    the standard library depends on the interpreter ([time.sleep], [in] on
    an enumeration), CPython 3.11 is followed. *)

From Stdlib Require Import ZArith List String Ascii Bool Lia Floats.
Import ListNotations.

Local Open Scope string_scope.
Local Open Scope list_scope.
Local Open Scope Z_scope.

(** ** The fragment of the Python runtime the driver relies on *)

Module Py.

(** Exceptions the driver, the interpreter or the client may raise. *)
Inductive Exn : Type :=
| IndexError
| AssertionError
| TypeError
| ValueError
| ZeroDivisionError
| OverflowError
| ConnectionException
| ModbusIOException.

Inductive Result (A : Type) : Type :=
| Ok (a : A)
| Raise (e : Exn).
Arguments Ok {A} a.
Arguments Raise {A} e.

(** [l[i]] on a Python list: a negative subscript counts from the end, a
    subscript outside [-len .. len-1] raises [IndexError]. *)
Definition py_index {A : Type} (l : list A) (i : Z) : Result A :=
  let n := Z.of_nat (List.length l) in
  let j := if i <? 0 then i + n else i in
  if (0 <=? j) && (j <? n)
  then match nth_error l (Z.to_nat j) with
       | Some x => Ok x
       | None => Raise IndexError
       end
  else Raise IndexError.

(** [a, b = l]: unpacking needs exactly two elements. *)
Definition unpack2 {A : Type} (l : list A) : Result (A * A) :=
  match l with
  | [a; b] => Ok (a, b)
  | _ => Raise ValueError
  end.

(** [hex(z)]: sign, the prefix [0x], lowercase digits without leading
    zeros. *)
Definition hex_digit (d : Z) : ascii :=
  match String.get (Z.to_nat d) "0123456789abcdef" with
  | Some c => c
  | None => "0"%char
  end.

Fixpoint hex_digits_fuel (fuel : nat) (z : Z) : string :=
  match fuel with
  | O => EmptyString
  | S f =>
      ((if (z / 16 =? 0)%Z then EmptyString else hex_digits_fuel f (z / 16))
         ++ String (hex_digit (z mod 16)) EmptyString)%string
  end.

Definition hex_digits (z : Z) : string :=
  hex_digits_fuel (S (Z.to_nat (Z.log2 z))) z.

Definition hex (z : Z) : string :=
  if z <? 0 then ("-0x" ++ hex_digits (- z))%string
  else ("0x" ++ hex_digits z)%string.

(** [s[n:]] for [n >= 0]. *)
Definition slice_from (n : nat) (s : string) : string :=
  String.substring n (String.length s - n)%nat s.

(** Values, for the places where the driver's result is not of the type
    its annotation promises.  [VBits] and [VRegisters] are pymodbus
    response objects. *)
Record BitsResponse : Type := mkBits { bits : list bool }.
Record RegistersResponse : Type := mkRegisters { registers : list Z }.

#[local] Unset Elimination Schemes.
Inductive value : Type :=
| VNone
| VBool (b : bool)
| VInt (z : Z)
| VFloat (f : float)
| VStr (s : string)
| VList (l : list value)
| VBits (r : BitsResponse)
| VRegisters (r : RegistersResponse).
#[local] Set Elimination Schemes.

(** [float(z)] for an int: round to nearest even, [OverflowError] when
    the int is beyond the range of a double. *)
Definition float_of_int (z : Z) : Result float :=
  let f := SF2Prim (binary_normalize prec emax z 0 false) in
  if PrimFloat.is_infinity f then Raise OverflowError else Ok f.

(** [a / y] where [y] is a float: defined on numbers only; any other left
    operand (a list, a string, a response object, None) has no [__truediv__]
    with a float and raises [TypeError]. *)
Definition truediv_float (a : value) (y : float) : Result value :=
  let divide (x : float) :=
    if PrimFloat.eqb y 0 then Raise ZeroDivisionError
    else Ok (VFloat (x / y)%float) in
  match a with
  | VFloat x => divide x
  | VInt z =>
      match float_of_int z with
      | Ok x => divide x
      | Raise e => Raise e
      end
  | VBool b => divide (if b then 1%float else 0%float)
  | VNone | VStr _ | VList _ | VBits _ | VRegisters _ => Raise TypeError
  end.

End Py.
Export Py.

(** ** The Modbus client *)

(** What the driver asks of its surroundings, in the order asked. *)
Inductive Event : Type :=
| EConnect
| EWriteCoil (address : Z) (value : bool)
| EReadCoils (address : Z)
| EReadDiscreteInputs (address : Z)
| EReadInputRegisters (address : Z) (count : Z)
| ESleep (secs : float).

(** [ModbusTcpClient]: each method answers (or raises) as a function of the
    operations issued before it. *)
Record Transport : Type := mkTransport {
  tp_connect : list Event -> Result bool;
  tp_write_coil : list Event -> Z -> bool -> Result unit;
  tp_read_coils : list Event -> Z -> Result BitsResponse;
  tp_read_discrete_inputs : list Event -> Z -> Result BitsResponse;
  tp_read_input_registers : list Event -> Z -> Z -> Result RegistersResponse
}.

(** ** The driver object *)

(** [class Edges(enum.IntEnum)]: [enum.auto()] numbers members from 1.
    What reaches [pulse_digital_output] as [polarity] is a member of
    [Edges] or, passed by mistake, an integer that is no Enum member or a
    member of another IntEnum.  Where interpreters differ the model follows
    CPython 3.11: [in] raises [TypeError] for an operand that is not an Enum
    member and answers [False] for a member of another enumeration.  (From
    Python 3.12 on, [in] decides by value and answers [False] where 3.11
    raises.) *)
Module Edges.
Inductive member : Type := Rising | Falling.
Inductive operand : Type :=
| Member (m : member)
| Plain (z : Z)
| Foreign (z : Z).
Definition RISING : operand := Member Rising.
Definition FALLING : operand := Member Falling.
(** The integer an operand is. *)
Definition int_value (polarity : operand) : Z :=
  match polarity with
  | Member Rising => 1
  | Member Falling => 2
  | Plain z | Foreign z => z
  end.
(** Whether the operand is one of the two members. *)
Definition contains (polarity : operand) : bool :=
  match polarity with
  | Member _ => true
  | Plain _ | Foreign _ => false
  end.
(** [polarity in Edges] *)
Definition membership (polarity : operand) : Result bool :=
  match polarity with
  | Member _ => Ok true
  | Plain _ => Raise TypeError
  | Foreign _ => Ok false
  end.
(** [a == b] on IntEnum members and ints: equality of the integers. *)
Definition equal (a b : operand) : bool := int_value a =? int_value b.
End Edges.

(** The attributes of an [ADAM6XXX] object that never change after
    construction: the class-level register tables and the client. *)
Record ADAM6XXX : Type := mkADAM {
  ip : string;
  digital_outputs : list Z;
  digital_inputs : list Z;
  analog_outputs : list Z;
  counter_registers : list Z;
  pulse_low_widths : list Z;
  pulse_high_widths : list Z;
  absolute_pulse_count : list Z;
  incremental_pulse_count : list Z;
  output_diagnostics : option Z;
  module_name : Z;
  gcl_flags : Z;
  gcl_counter_registers : list Z;
  clear_gcl_counters : list Z;
  client : Transport
}.

(** The base class: empty tables. *)
Definition ADAM6XXX_base (ip : string) (tp : Transport) : ADAM6XXX :=
  {| ip := ip;
     digital_outputs := [];
     digital_inputs := [];
     analog_outputs := [];
     counter_registers := [];
     pulse_low_widths := [];
     pulse_high_widths := [];
     absolute_pulse_count := [];
     incremental_pulse_count := [];
     output_diagnostics := None;
     module_name := 210;
     gcl_flags := 304;
     gcl_counter_registers := [310; 312; 314; 316; 318; 320; 322; 324];
     clear_gcl_counters := [300; 301; 302; 303; 304; 305; 306; 307];
     client := tp |}.

(** [class ADAM6052(ADAM6XXX)] *)
Definition ADAM6052 (ip : string) (tp : Transport) : ADAM6XXX :=
  {| ip := ip;
     digital_outputs := [16; 17; 18; 19; 20; 21; 22; 23];
     digital_inputs := [0; 1; 2; 3; 4; 5; 6; 7];
     analog_outputs := [];
     counter_registers := [0; 2; 4; 6; 8; 10; 12; 14];
     pulse_low_widths := [16; 18; 20; 22; 24; 26; 28; 30];
     pulse_high_widths := [32; 34; 36; 38; 40; 42; 44; 46];
     absolute_pulse_count := [48; 50; 52; 54; 56; 58; 60; 62];
     incremental_pulse_count := [64; 66; 68; 70; 72; 74; 76; 78];
     output_diagnostics := Some 306;
     module_name := 210;
     gcl_flags := 304;
     gcl_counter_registers := [310; 312; 314; 316; 318; 320; 322; 324];
     clear_gcl_counters := [300; 301; 302; 303; 304; 305; 306; 307];
     client := tp |}.

(** [class ADAM6060(ADAM6XXX)] *)
Definition ADAM6060 (ip : string) (tp : Transport) : ADAM6XXX :=
  {| ip := ip;
     digital_outputs := [16; 17; 18; 19; 20; 21];
     digital_inputs := [0; 1; 2; 3; 4; 5];
     analog_outputs := [];
     counter_registers := [0; 2; 4; 6; 8; 10];
     pulse_low_widths := [12; 14; 16; 18; 20; 22];
     pulse_high_widths := [24; 26; 28; 30; 32; 34];
     absolute_pulse_count := [36; 38; 40; 42; 44; 46];
     incremental_pulse_count := [48; 50; 52; 54; 56; 58];
     output_diagnostics := None;
     module_name := 210;
     gcl_flags := 304;
     gcl_counter_registers := [310; 312; 314; 316; 318; 320; 322; 324];
     clear_gcl_counters := [300; 301; 302; 303; 304; 305; 306; 307];
     client := tp |}.

(** The attributes a method assigns ([self.name], [self.connected]) and the
    log of what has been asked of the client and the clock. *)
Record State : Type := mkState {
  name : string;
  connected : bool;
  log : list Event
}.

(** A freshly constructed object: [name = ''], [connected = False]. *)
Definition fresh : State := {| name := ""; connected := false; log := [] |}.

(** ** State and exceptions *)

Definition M (A : Type) : Type := State -> Result A * State.

Definition ret {A : Type} (a : A) : M A := fun st => (Ok a, st).

Definition raise {A : Type} (e : Exn) : M A := fun st => (Raise e, st).

Definition bind {A B : Type} (m : M A) (k : A -> M B) : M B :=
  fun st =>
    match m st with
    | (Ok a, st') => k a st'
    | (Raise e, st') => (Raise e, st')
    end.

Declare Scope py_scope.
Delimit Scope py_scope with py.
Notation "x <- m ;; k" := (bind m (fun x => k))
  (at level 100, m at next level, right associativity) : py_scope.
Notation "m ;; k" := (bind m (fun _ => k))
  (at level 100, right associativity) : py_scope.
Local Open Scope py_scope.

(** A pure computation that may raise. *)
Definition lift {A : Type} (r : Result A) : M A := fun st => (r, st).

(** [assert c], with assertions enabled (the interpreter's default). *)
Definition assert (c : bool) : M unit :=
  if c then ret tt else raise AssertionError.

(** An operation on the client: it is logged whether it answers or raises,
    and answered from the history before it. *)
Definition call {A : Type} (e : Event) (answer : list Event -> Result A)
  : M A :=
  fun st =>
    (answer (log st),
     {| name := name st; connected := connected st; log := log st ++ [e] |}).

(** [time.sleep(secs)], as CPython 3.11 decides whether to sleep.  A NaN is
    a [ValueError].  The seconds are turned into nanoseconds, a double
    still; outside [-2^63 .. 2^63] that is an [OverflowError]; inside, the
    integer it converts to is tested for its sign and a negative one is a
    [ValueError] (2^63 itself converts to -2^63).  The rounding to whole
    nanoseconds between the two, away from zero, changes neither test. *)
Definition nanoseconds (secs : float) : float := (secs * 1000000000)%float.

Definition sleep_check (secs : float) : Result unit :=
  if PrimFloat.is_nan secs then Raise ValueError
  else if ((-0x1p+63 <=? nanoseconds secs)
           && (nanoseconds secs <=? 0x1p+63))%float
       then if ((nanoseconds secs <? 0)
                || (nanoseconds secs =? 0x1p+63))%float
            then Raise ValueError
            else Ok tt
       else Raise OverflowError.

(** Once accepted, the calling thread blocks for that long. *)
Definition sleep (secs : float) : M unit :=
  match sleep_check secs with
  | Ok _ => call (ESleep secs) (fun _ => Ok tt)
  | Raise e => raise e
  end.

Definition get_name : M string := fun st => (Ok (name st), st).

Definition set_name (s : string) : M unit :=
  fun st =>
    (Ok tt, {| name := s; connected := connected st; log := log st |}).

Definition get_connected : M bool := fun st => (Ok (connected st), st).

Definition set_connected (b : bool) : M unit :=
  fun st => (Ok tt, {| name := name st; connected := b; log := log st |}).

(** ** The methods of [ADAM6XXX] *)

Definition get_module_name (self : ADAM6XXX) : M string :=
  r <- call (EReadInputRegisters (module_name self) 2)
         (fun h => tp_read_input_registers (client self) h
                     (module_name self) 2) ;;
  lh <- lift (unpack2 (registers r)) ;;
  let '(low, high) := lh in
  set_name "" ;;
  (if low =? 0 then ret tt
   else (n <- get_name ;; set_name (n ++ slice_from 2 (hex low))%string)) ;;
  (if high =? 0 then ret tt
   else (n <- get_name ;; set_name (n ++ slice_from 2 (hex high))%string)) ;;
  get_name.

Definition connect (self : ADAM6XXX) : M bool :=
  c <- call EConnect (tp_connect (client self)) ;;
  set_connected c ;;
  get_module_name self ;;
  get_connected.

Definition get_digital_output (self : ADAM6XXX) (index : Z) : M bool :=
  a <- lift (py_index (digital_outputs self) index) ;;
  r <- call (EReadCoils a) (fun h => tp_read_coils (client self) h a) ;;
  lift (py_index (bits r) 0).

Definition set_digital_output (self : ADAM6XXX) (index : Z) (state : bool)
  (verify : bool) : M unit :=
  a <- lift (py_index (digital_outputs self) index) ;;
  call (EWriteCoil a state)
    (fun h => tp_write_coil (client self) h a state) ;;
  if verify then
    (coil_state <- get_digital_output self index ;;
     assert (Bool.eqb coil_state state))
  else ret tt.

(** The method hands back what [read_discrete_inputs] answered: the response
    object itself. *)
Definition get_digital_input (self : ADAM6XXX) (index : Z) : M value :=
  a <- lift (py_index (digital_inputs self) index) ;;
  r <- call (EReadDiscreteInputs a)
         (fun h => tp_read_discrete_inputs (client self) h a) ;;
  ret (VBits r).

Definition pulse_digital_output (self : ADAM6XXX) (index : Z)
  (polarity : Edges.operand) (verify : bool) (duration : float) : M unit :=
  is_member <- lift (Edges.membership polarity) ;;
  assert is_member ;;
  if Edges.equal polarity Edges.RISING then
    (set_digital_output self index false verify ;;
     set_digital_output self index true verify ;;
     sleep duration ;;
     set_digital_output self index false verify)
  else if Edges.equal polarity Edges.FALLING then
    (set_digital_output self index true verify ;;
     set_digital_output self index false verify ;;
     sleep duration ;;
     set_digital_output self index true verify)
  else ret tt.

Definition get_counter (self : ADAM6XXX) (index : Z) : M Z :=
  a <- lift (py_index (counter_registers self) index) ;;
  r <- call (EReadInputRegisters a 2)
         (fun h => tp_read_input_registers (client self) h a 2) ;;
  lh <- lift (unpack2 (registers r)) ;;
  let '(low, high) := lh in
  ret (high * 65536 + low).

(** [low] is bound to the whole [registers] list, and that list is what is
    divided. *)
Definition get_frequency (self : ADAM6XXX) (index : Z) : M value :=
  a <- lift (py_index (counter_registers self) index) ;;
  r <- call (EReadInputRegisters a 1)
         (fun h => tp_read_input_registers (client self) h a 1) ;;
  let low := VList (map VInt (registers r)) in
  lift (truediv_float low 10%float).

(** [__init__]: builds the object and connects if asked to. *)
Definition init (self : ADAM6XXX) (do_connect : bool) : Result unit * State :=
  if do_connect then
    match connect self fresh with
    | (Ok _, st) => (Ok tt, st)
    | (Raise e, st) => (Raise e, st)
    end
  else (Ok tt, fresh).

(** ** Reading the tables and the hexadecimal text *)

(** The bounds the register tables are meant to be used within. *)
Definition valid_index {A : Type} (l : list A) (i : Z) : Prop :=
  0 <= i < Z.of_nat (List.length l).

(** Subscripts Python rejects. *)
Definition out_of_range {A : Type} (l : list A) (i : Z) : Prop :=
  i < - Z.of_nat (List.length l) \/ Z.of_nat (List.length l) <= i.

(** The address a table holds at a valid index. *)
Definition table_at (l : list Z) (i : Z) : Z := nth (Z.to_nat i) l 0.

(** Reading hexadecimal text back: defined on the characters [0-9a-f]
    only. *)
Definition digit_value (c : ascii) : option Z :=
  option_map Z.of_nat
    (String.index 0 (String c EmptyString) "0123456789abcdef").

Fixpoint hex_value_from (acc : Z) (s : string) : option Z :=
  match s with
  | EmptyString => Some acc
  | String c r =>
      match digit_value c with
      | Some d => hex_value_from (16 * acc + d) r
      | None => None
      end
  end.

Definition hex_value (s : string) : option Z := hex_value_from 0 s.

(** What one register contributes to the module name. *)
Definition segment (z : Z) : string :=
  if z =? 0 then EmptyString else hex_digits z.

(** The state after further events have been logged. *)
Definition logged (st : State) (es : list Event) : State :=
  {| name := name st; connected := connected st; log := log st ++ es |}.

(** The events of one force step at coil [a]. *)
Definition force (a : Z) (state verify : bool) : list Event :=
  EWriteCoil a state :: (if verify then [EReadCoils a] else []).

(** The transport acknowledges every write to coil [a]. *)
Definition acknowledges (tp : Transport) (a : Z) : Prop :=
  forall h v, tp_write_coil tp h a v = Ok tt.

(** Right after a write to coil [a], a read of [a] answers with the value
    written in its first bit. *)
Definition reads_back (tp : Transport) (a : Z) : Prop :=
  forall h v, exists r,
    tp_read_coils tp (h ++ [EWriteCoil a v]) a = Ok r /\
    py_index (bits r) 0 = Ok v.


(** The states a pulse of the given polarity is meant to force, in order. *)
Definition forced_sequence (polarity : Edges.operand) : list bool :=
  match polarity with
  | Edges.Member Edges.Rising => [false; true; false]
  | Edges.Member Edges.Falling => [true; false; true]
  | Edges.Plain _ | Edges.Foreign _ => []
  end.

(** The number of coil writes in a log. *)
Definition writes (h : list Event) : nat :=
  List.length
    (filter (fun e => match e with EWriteCoil _ _ => true | _ => false end) h).

(** ** Simulated transports *)

Module Sim.

(** The value a coil holds after a history, from its initial value. *)
Definition coil_after (h : list Event) (a : Z) (init : bool) : bool :=
  fold_left
    (fun acc e =>
       match e with
       | EWriteCoil a' v => if a' =? a then v else acc
       | _ => acc
       end)
    h init.

(** One bit, padded to a byte as pymodbus does. *)
Definition padded (b : bool) : BitsResponse := mkBits (b :: repeat false 7).

Definition read_registers (regs : Z -> Z) (a count : Z) : RegistersResponse :=
  mkRegisters (map (fun k => regs (a + Z.of_nat k)) (seq 0 (Z.to_nat count))).

(** A reachable module whose coils remember what was written. *)
Definition device (coils inputs : Z -> bool) (regs : Z -> Z) : Transport :=
  {| tp_connect := fun _ => Ok true;
     tp_write_coil := fun _ _ _ => Ok tt;
     tp_read_coils := fun h a => Ok (padded (coil_after h a (coils a)));
     tp_read_discrete_inputs := fun _ a => Ok (padded (inputs a));
     tp_read_input_registers := fun _ a n => Ok (read_registers regs a n) |}.

(** A module that acknowledges writes but whose coils read back LOW. *)
Definition stuck_low : Transport :=
  {| tp_connect := fun _ => Ok true;
     tp_write_coil := fun _ _ _ => Ok tt;
     tp_read_coils := fun _ _ => Ok (padded false);
     tp_read_discrete_inputs := fun _ _ => Ok (padded false);
     tp_read_input_registers := fun _ a n => Ok (read_registers (fun _ => 0) a n) |}.

(** Nothing answers at the address: [connect] reports failure and every
    request raises. *)
Definition unreachable : Transport :=
  {| tp_connect := fun _ => Ok false;
     tp_write_coil := fun _ _ _ => Raise ConnectionException;
     tp_read_coils := fun _ _ => Raise ConnectionException;
     tp_read_discrete_inputs := fun _ _ => Raise ConnectionException;
     tp_read_input_registers := fun _ _ _ => Raise ConnectionException |}.

(** Input registers: 0x41 then 0x42 at the module name, 123 at counter 0,
    5 and 2 at counter 1. *)
Definition regs0 (a : Z) : Z :=
  if a =? 210 then 65 else if a =? 211 then 66
  else if a =? 0 then 123 else if a =? 2 then 5 else if a =? 3 then 2
  else 0.

(** Input 0 is HIGH, the others LOW. *)
Definition inputs0 (a : Z) : bool := a =? 0.

Definition bench : ADAM6XXX :=
  ADAM6052 "10.0.0.1" (device (fun _ => true) inputs0 regs0).

End Sim.

(** ** What an operation may do to the state *)

(** The state an operation leaves is related to the one it found. *)
Definition respects {A : Type} (R : State -> State -> Prop) (m : M A)
  : Prop :=
  forall st, R st (snd (m st)).

(** The log has grown, and only by events that satisfy [P]. *)
Definition extends_by (P : Event -> bool) (st st' : State) : Prop :=
  exists es, log st' = log st ++ es /\ forallb P es = true.

(** [name] and [connected] are as they were. *)
Definition same_identity (st st' : State) : Prop :=
  name st' = name st /\ connected st' = connected st.

Definition emits_only {A : Type} (P : Event -> bool) (m : M A) : Prop :=
  respects (extends_by P) m.

Definition keeps_identity {A : Type} (m : M A) : Prop :=
  respects same_identity m.

(** Events that change nothing on the module: everything but a coil write
    and a sleep. *)
Definition passive (e : Event) : bool :=
  match e with
  | EWriteCoil _ _ | ESleep _ => false
  | _ => true
  end.

(** Coil writes and sleeps. *)
Definition write_or_sleep (e : Event) : bool :=
  match e with
  | EWriteCoil _ _ | ESleep _ => true
  | _ => false
  end.

(** Writes and reads of coil [a], and sleeps. *)
Definition on_coil (a : Z) (e : Event) : bool :=
  match e with
  | EWriteCoil a' _ | EReadCoils a' => a' =? a
  | ESleep _ => true
  | _ => false
  end.

(** The value most recently written to coil [a], if any. *)
Fixpoint last_written (a : Z) (h : list Event) : option bool :=
  match h with
  | [] => None
  | e :: r =>
      match last_written a r with
      | Some v => Some v
      | None =>
          match e with
          | EWriteCoil a' v => if a' =? a then Some v else None
          | _ => None
          end
      end
  end.

(** The transport acknowledges writes to coil [a] and a read of [a] answers,
    in its first bit, the value most recently written. *)
Definition remembers (tp : Transport) (a : Z) : Prop :=
  acknowledges tp a
  /\ forall h v, last_written a h = Some v ->
                 exists r, tp_read_coils tp h a = Ok r
                           /\ py_index (bits r) 0 = Ok v.

(** ** Basic facts *)

Section Monad.
Context {A B : Type}.

Lemma bind_ok (m : M A) (k : A -> M B) (st st' : State) (a : A) :
  m st = (Ok a, st') -> bind m k st = k a st'.
Proof. intros H. unfold bind. now rewrite H. Qed.

Lemma bind_raise (m : M A) (k : A -> M B) (st st' : State) (e : Exn) :
  m st = (Raise e, st') -> bind m k st = (Raise e, st').
Proof. intros H. unfold bind. now rewrite H. Qed.
End Monad.

Section Subscript.
Context {A : Type}.
Implicit Types (l : list A) (i : Z).

Lemma py_index_nonneg l i :
  valid_index l i ->
  py_index l i = match nth_error l (Z.to_nat i) with
                 | Some x => Ok x
                 | None => Raise IndexError
                 end.
Proof.
  unfold valid_index, py_index. intros [H0 H1].
  replace (i <? 0) with false by (symmetry; apply Z.ltb_ge; lia).
  replace (0 <=? i) with true by (symmetry; apply Z.leb_le; lia).
  replace (i <? Z.of_nat (List.length l)) with true
    by (symmetry; apply Z.ltb_lt; lia).
  reflexivity.
Qed.

Lemma py_index_out_of_range l i :
  out_of_range l i -> py_index l i = Raise IndexError.
Proof.
  unfold out_of_range, py_index. intros [H | H].
  - replace (i <? 0) with true by (symmetry; apply Z.ltb_lt; lia).
    replace (0 <=? i + Z.of_nat (List.length l)) with false
      by (symmetry; apply Z.leb_gt; lia).
    reflexivity.
  - replace (i <? 0) with false by (symmetry; apply Z.ltb_ge; lia).
    replace (i <? Z.of_nat (List.length l)) with false
      by (symmetry; apply Z.ltb_ge; lia).
    now rewrite andb_false_r.
Qed.

Lemma py_index_wraps l i :
  - Z.of_nat (List.length l) <= i < 0 ->
  py_index l i = py_index l (i + Z.of_nat (List.length l)).
Proof.
  unfold py_index. intros [H0 H1].
  replace (i <? 0) with true by (symmetry; apply Z.ltb_lt; lia).
  replace (i + Z.of_nat (List.length l) <? 0) with false
    by (symmetry; apply Z.ltb_ge; lia).
  reflexivity.
Qed.

(** A subscript is answered only from inside the table. *)
Lemma py_index_in l i x : py_index l i = Ok x -> In x l.
Proof.
  unfold py_index.
  destruct (_ && _); [|discriminate].
  destruct (nth_error l _) eqn:E; [|discriminate].
  intros [= <-]. eapply nth_error_In; eauto.
Qed.
End Subscript.

Lemma py_index_valid (l : list Z) (i : Z) :
  valid_index l i -> py_index l i = Ok (table_at l i).
Proof.
  intros H. rewrite (py_index_nonneg l i H). unfold table_at.
  destruct H as [H0 H1].
  destruct (nth_error l (Z.to_nat i)) eqn:E.
  - now rewrite (nth_error_nth _ _ _ E).
  - apply nth_error_None in E. lia.
Qed.

Section Hexadecimal.

Lemma digit_value_hex_digit (d : Z) :
  0 <= d < 16 -> digit_value (hex_digit d) = Some d.
Proof.
  intros H.
  assert (E : d = 0 \/ d = 1 \/ d = 2 \/ d = 3 \/ d = 4 \/ d = 5 \/ d = 6
              \/ d = 7 \/ d = 8 \/ d = 9 \/ d = 10 \/ d = 11 \/ d = 12
              \/ d = 13 \/ d = 14 \/ d = 15) by lia.
  repeat (destruct E as [-> | E]; [reflexivity|]).
  now subst.
Qed.

Lemma hex_value_from_app (s t : string) :
  forall acc,
    hex_value_from acc (s ++ t) =
    match hex_value_from acc s with
    | Some v => hex_value_from v t
    | None => None
    end.
Proof.
  induction s as [|c s IH]; intros acc; simpl; [reflexivity|].
  destruct (digit_value c); [apply IH | reflexivity].
Qed.

Lemma hex_digits_fuel_value (fuel : nat) :
  forall z, 0 <= z < 2 ^ Z.of_nat fuel -> (1 <= fuel)%nat ->
            hex_value (hex_digits_fuel fuel z) = Some z.
Proof.
  unfold hex_value.
  induction fuel as [|f IH]; intros z Hz Hf; [lia|].
  cbn [hex_digits_fuel]. rewrite hex_value_from_app.
  assert (Hm : 0 <= z mod 16 < 16) by (apply Z.mod_pos_bound; lia).
  assert (Hd : z = 16 * (z / 16) + z mod 16) by (apply Z.div_mod; lia).
  destruct (z / 16 =? 0) eqn:E.
  - apply Z.eqb_eq in E. cbn [hex_value_from].
    rewrite (digit_value_hex_digit _ Hm). f_equal. lia.
  - apply Z.eqb_neq in E.
    assert (Hq : 0 <= z / 16) by (apply Z.div_pos; lia).
    assert (Hp : 2 ^ Z.of_nat (S f) = 2 * 2 ^ Z.of_nat f)
      by (rewrite Nat2Z.inj_succ; apply Z.pow_succ_r; lia).
    assert (Hf' : (1 <= f)%nat).
    { destruct f; [|lia]. cbn in Hz. lia. }
    rewrite IH; [|lia|exact Hf'].
    cbn [hex_value_from].
    rewrite (digit_value_hex_digit _ Hm). f_equal. lia.
Qed.

(** The digits of a non-negative number read back as that number, so
    they are the characters [0-9a-f] only. *)
Lemma hex_digits_value (z : Z) :
  0 <= z -> hex_value (hex_digits z) = Some z.
Proof.
  intros Hz. unfold hex_digits. apply hex_digits_fuel_value; [|lia].
  rewrite Nat2Z.inj_succ, Z2Nat.id by apply Z.log2_nonneg.
  destruct (Z.eq_dec z 0) as [-> | Hne]; [cbn; lia|].
  split; [lia|]. apply Z.log2_spec. lia.
Qed.

Lemma append_empty_r (s : string) : (s ++ EmptyString)%string = s.
Proof. induction s as [|c s IH]; simpl; [reflexivity | now rewrite IH]. Qed.

Lemma substring_all (s : string) : substring 0 (String.length s) s = s.
Proof. induction s as [|c s IH]; simpl; [reflexivity | now rewrite IH]. Qed.

(** [hex(z)[2:]] is the digits of [z] when [z] is not negative. *)
Lemma slice_hex (z : Z) : 0 <= z -> slice_from 2 (hex z) = hex_digits z.
Proof.
  intros Hz. unfold hex.
  replace (z <? 0) with false by (symmetry; apply Z.ltb_ge; lia).
  unfold slice_from. cbn [append String.length Nat.sub substring].
  rewrite Nat.sub_0_r. apply substring_all.
Qed.

End Hexadecimal.

(** ** Single steps *)

Lemma logged_nil (st : State) : logged st [] = st.
Proof. destruct st. unfold logged. cbn. now rewrite app_nil_r. Qed.

Lemma logged_logged (st : State) (es fs : list Event) :
  logged (logged st es) fs = logged st (es ++ fs).
Proof. unfold logged. cbn. now rewrite app_assoc. Qed.

Lemma call_logged {A : Type} (e : Event) (answer : list Event -> Result A)
  (st : State) :
  call e answer st = (answer (log st), logged st [e]).
Proof. reflexivity. Qed.

(** A read of the coil at a mapped index that is answered. *)
Lemma get_digital_output_answered (self : ADAM6XXX) (index a : Z)
  (r : BitsResponse) (st : State) :
  py_index (digital_outputs self) index = Ok a ->
  tp_read_coils (client self) (log st) a = Ok r ->
  get_digital_output self index st =
  (py_index (bits r) 0, logged st [EReadCoils a]).
Proof.
  intros Hi Hr. unfold get_digital_output, bind, lift.
  rewrite Hi, call_logged, Hr. reflexivity.
Qed.

(** A force step without read-back. *)
Lemma set_digital_output_unverified (self : ADAM6XXX) (index a : Z)
  (state : bool) (st : State) :
  py_index (digital_outputs self) index = Ok a ->
  tp_write_coil (client self) (log st) a state = Ok tt ->
  set_digital_output self index state false st =
  (Ok tt, logged st [EWriteCoil a state]).
Proof.
  intros Hi Hw. unfold set_digital_output, bind, lift.
  rewrite Hi, call_logged, Hw. reflexivity.
Qed.

(** A force step with read-back: the verdict is the comparison of the
    first bit read with the state written. *)
Lemma set_digital_output_verified (self : ADAM6XXX) (index a : Z)
  (state b : bool) (r : BitsResponse) (st : State) :
  py_index (digital_outputs self) index = Ok a ->
  tp_write_coil (client self) (log st) a state = Ok tt ->
  tp_read_coils (client self) (log st ++ [EWriteCoil a state]) a = Ok r ->
  py_index (bits r) 0 = Ok b ->
  set_digital_output self index state true st =
  (if Bool.eqb b state then Ok tt else Raise AssertionError,
   logged st [EWriteCoil a state; EReadCoils a]).
Proof.
  intros Hi Hw Hr Hb. unfold set_digital_output.
  unfold bind at 1, lift at 1. rewrite Hi.
  unfold bind at 1. rewrite call_logged, Hw.
  unfold bind at 1.
  rewrite (get_digital_output_answered self index a r
             (logged st [EWriteCoil a state]) Hi Hr), Hb.
  rewrite logged_logged. cbn [app].
  unfold assert. destruct (Bool.eqb b state); reflexivity.
Qed.

(** On such a transport a force step succeeds and issues exactly its own
    events. *)
Lemma set_digital_output_forces (self : ADAM6XXX) (index a : Z)
  (state verify : bool) (st : State) :
  py_index (digital_outputs self) index = Ok a ->
  acknowledges (client self) a ->
  (verify = true -> reads_back (client self) a) ->
  set_digital_output self index state verify st =
  (Ok tt, logged st (force a state verify)).
Proof.
  intros Hi Hw Hr. destruct verify; unfold force.
  - destruct (Hr eq_refl (log st) state) as (r & Hread & Hbit).
    rewrite (set_digital_output_verified self index a state state r st
               Hi (Hw _ _) Hread Hbit).
    now rewrite Bool.eqb_reflx.
  - apply set_digital_output_unverified; auto.
Qed.

(** An index Python rejects stops a force step before the client is
    asked anything. *)
Lemma set_digital_output_rejects (self : ADAM6XXX) (index : Z)
  (state verify : bool) (st : State) :
  py_index (digital_outputs self) index = Raise IndexError ->
  set_digital_output self index state verify st = (Raise IndexError, st).
Proof.
  intros Hi. unfold set_digital_output, bind, lift. now rewrite Hi.
Qed.

Section Clock.

(** The constants of [sleep_check]. *)
Lemma giga : Prim2SF 1000000000 = S754_finite false 8388608000000000 (-23).
Proof. reflexivity. Qed.
Lemma p63 : Prim2SF 0x1p+63 = S754_finite false 4503599627370496 11.
Proof. reflexivity. Qed.
Lemma m63 : Prim2SF (-0x1p+63) = S754_finite true 4503599627370496 11.
Proof. reflexivity. Qed.
Lemma z0 : Prim2SF 0 = S754_zero false.
Proof. reflexivity. Qed.

Lemma binary_round_aux_sign (sx : bool) (mx ex : Z) (lx : location) :
  binary_round_aux prec emax sx mx ex lx = S754_zero sx
  \/ (exists m e, binary_round_aux prec emax sx mx ex lx = S754_finite sx m e)
  \/ binary_round_aux prec emax sx mx ex lx = S754_infinity sx
  \/ binary_round_aux prec emax sx mx ex lx = S754_nan.
Proof.
  unfold binary_round_aux.
  destruct (shr_fexp prec emax mx ex lx) as [mrs' e'].
  destruct (shr_fexp prec emax _ e' loc_Exact) as [mrs'' e''].
  destruct (shr_m mrs'') as [|m|m].
  - now left.
  - destruct (e'' <=? emax - prec); eauto 6.
  - now right; right; right.
Qed.

Lemma digits2_size (p : positive) : digits2_pos p = Pos.size p.
Proof. induction p; cbn; now rewrite ?IHp. Qed.

Lemma digits2_bounds (p : positive) :
  2 ^ (Zpos (digits2_pos p) - 1) <= Zpos p < 2 ^ Zpos (digits2_pos p).
Proof.
  rewrite digits2_size. split.
  - pose proof (Pos.size_le p) as H.
    apply Pos2Z.pos_le_pos in H. rewrite Pos2Z.inj_pow in H.
    change (Z.pos p~0) with (2 * Z.pos p) in H.
    replace (Zpos (Pos.size p)) with (Z.succ (Zpos (Pos.size p) - 1)) in H
      by lia.
    rewrite Z.pow_succ_r in H by lia. lia.
  - pose proof (Pos.size_gt p) as H.
    apply Pos2Z.pos_lt_pos in H. now rewrite Pos2Z.inj_pow in H.
Qed.

Lemma shr_1_div2 (r : shr_record) :
  0 <= shr_m r -> shr_m (shr_1 r) = shr_m r / 2.
Proof.
  destruct r as [m b s]. cbn [shr_m]. intros Hm.
  rewrite <- Z.div2_div.
  destruct m as [|[p|p|]|p]; cbn; try reflexivity. lia.
Qed.

Lemma iter_shr_1 (p : positive) :
  forall r, 0 <= shr_m r ->
            shr_m (iter_pos shr_1 p r) = shr_m r / 2 ^ Zpos p.
Proof.
  assert (Hnn : forall a k, 0 <= a -> 0 <= a / 2 ^ Zpos k).
  { intros a k Ha. apply Z.div_pos; [exact Ha | apply Z.pow_pos_nonneg; lia]. }
  induction p as [p IH|p IH|]; intros r Hr; cbn [iter_pos].
  - assert (E : 2 ^ Zpos p~1 = 2 * 2 ^ Zpos p * 2 ^ Zpos p).
    { replace (Zpos p~1) with (1 + Zpos p + Zpos p) by lia.
      rewrite !Z.pow_add_r by lia. reflexivity. }
    assert (H1 : 0 <= shr_m (shr_1 r))
      by (rewrite shr_1_div2 by assumption; apply Z.div_pos; lia).
    rewrite IH by (rewrite IH by assumption; now apply Hnn).
    rewrite IH, shr_1_div2 by assumption.
    rewrite !Z.div_div by (try apply Z.pow_pos_nonneg; lia).
    rewrite E. f_equal. ring.
  - assert (E : 2 ^ Zpos p~0 = 2 ^ Zpos p * 2 ^ Zpos p).
    { replace (Zpos p~0) with (Zpos p + Zpos p) by lia.
      rewrite !Z.pow_add_r by lia. reflexivity. }
    rewrite IH by (rewrite IH by assumption; now apply Hnn).
    rewrite IH by assumption.
    rewrite !Z.div_div by (try apply Z.pow_pos_nonneg; lia).
    now rewrite E.
  - rewrite shr_1_div2 by assumption. reflexivity.
Qed.

Lemma shr_record_of_loc_m (m : Z) (l : location) :
  shr_m (shr_record_of_loc m l) = m.
Proof. destruct l as [|[]]; reflexivity. Qed.

Lemma shr_fexp_positive (p : positive) (e : Z) (l : location) :
  fexp prec emax (Zpos (digits2_pos p) + e) - e < Zpos (digits2_pos p) ->
  0 < shr_m (fst (shr_fexp prec emax (Zpos p) e l))
  /\ SpecFloat.emin prec emax <= snd (shr_fexp prec emax (Zpos p) e l).
Proof.
  unfold shr_fexp, shr. cbn [Zdigits2].
  assert (Hf : SpecFloat.emin prec emax <= fexp prec emax (Zpos (digits2_pos p) + e))
    by (unfold fexp; lia).
  destruct (fexp prec emax (Zpos (digits2_pos p) + e) - e) as [|q|q] eqn:En;
    intros Hn; cbn [fst snd].
  - rewrite shr_record_of_loc_m. lia.
  - rewrite iter_shr_1, shr_record_of_loc_m
      by (rewrite shr_record_of_loc_m; lia).
    split; [|lia].
    apply Z.div_str_pos. split; [apply Z.pow_pos_nonneg; lia|].
    apply Z.le_trans with (2 ^ (Zpos (digits2_pos p) - 1)).
    + apply Z.pow_le_mono_r; lia.
    + apply digits2_bounds.
  - rewrite shr_record_of_loc_m. lia.
Qed.

Lemma round_nearest_even_positive (m : Z) (l : location) :
  0 < m -> 0 < round_nearest_even m l.
Proof.
  intros Hm. destruct l as [|[]]; cbn; try lia. destruct (Z.even m); lia.
Qed.

(** Rounding a non-zero mantissa that is not shifted out gives a non-zero
    number of the same sign. *)
Lemma binary_round_aux_nonzero (sx : bool) (p : positive) (e : Z) :
  fexp prec emax (Zpos (digits2_pos p) + e) - e < Zpos (digits2_pos p) ->
  (exists m' e', binary_round_aux prec emax sx (Zpos p) e loc_Exact
                 = S754_finite sx m' e')
  \/ binary_round_aux prec emax sx (Zpos p) e loc_Exact = S754_infinity sx.
Proof.
  intros Hn. unfold binary_round_aux.
  destruct (shr_fexp_positive p e loc_Exact Hn) as [Hm He].
  destruct (shr_fexp prec emax (Zpos p) e loc_Exact) as [mrs' e'].
  cbn [fst snd] in Hm, He.
  pose proof (round_nearest_even_positive (shr_m mrs')
                (loc_of_shr_record mrs') Hm) as Hr.
  destruct (round_nearest_even (shr_m mrs') (loc_of_shr_record mrs'))
    as [|p2|p2]; try lia.
  assert (Hn2 : fexp prec emax (Zpos (digits2_pos p2) + e') - e'
                < Zpos (digits2_pos p2)).
  { unfold fexp, SpecFloat.emin, prec, emax in *. lia. }
  destruct (shr_fexp_positive p2 e' loc_Exact Hn2) as [Hm2 _].
  destruct (shr_fexp prec emax (Zpos p2) e' loc_Exact) as [mrs'' e''].
  cbn [fst] in Hm2.
  destruct (shr_m mrs'') as [|m|m]; try lia.
  destruct (e'' <=? emax - prec); eauto.
Qed.

(** A finite non-zero double times 1e9 is not zero: it keeps its sign. *)
Lemma SFmul_giga_sign (s : bool) (m : positive) (e : Z) :
  bounded prec emax m e = true ->
  (exists m' e',
      SFmul prec emax (S754_finite s m e)
        (S754_finite false 8388608000000000 (-23))
      = S754_finite s m' e')
  \/ SFmul prec emax (S754_finite s m e)
       (S754_finite false 8388608000000000 (-23))
     = S754_infinity s.
Proof.
  intros Hb. cbn [SFmul]. rewrite xorb_false_r.
  apply binary_round_aux_nonzero.
  unfold bounded, canonical_mantissa in Hb.
  apply andb_true_iff in Hb as [Hc _]. apply Z.eqb_eq in Hc.
  assert (He : SpecFloat.emin prec emax <= e) by (unfold fexp in Hc; lia).
  assert (Hd : 52 < Zpos (digits2_pos (m * 8388608000000000))).
  { apply (Z.pow_lt_mono_r_iff 2); [lia|lia|].
    eapply Z.le_lt_trans; [|apply digits2_bounds].
    rewrite Pos2Z.inj_mul.
    assert (4503599627370496 <= Zpos m * 8388608000000000) by nia.
    change (2 ^ 52) with 4503599627370496. assumption. }
  unfold fexp, SpecFloat.emin, prec, emax in *. lia.
Qed.

Lemma Prim2SF_nanoseconds (d : float) :
  Prim2SF (nanoseconds d) =
  SFmul prec emax (Prim2SF d) (S754_finite false 8388608000000000 (-23)).
Proof. unfold nanoseconds. now rewrite mul_spec, giga. Qed.

Lemma SFcompare_refl_finite (s : bool) (m : positive) (e : Z) :
  SFcompare (S754_finite s m e) (S754_finite s m e) = Some Eq.
Proof.
  cbn. rewrite Z.compare_refl, Pos.compare_cont_refl. now destruct s.
Qed.

(** [sleep_check] on the specification side. *)
Lemma sleep_check_spec (d : float) :
  sleep_check d =
  match SFcompare (Prim2SF d) (Prim2SF d) with
  | Some Eq =>
      if SFleb (S754_finite true 4503599627370496 11) (Prim2SF (nanoseconds d))
         && SFleb (Prim2SF (nanoseconds d))
              (S754_finite false 4503599627370496 11)
      then if SFltb (Prim2SF (nanoseconds d)) (S754_zero false)
              || SFeqb (Prim2SF (nanoseconds d))
                   (S754_finite false 4503599627370496 11)
           then Raise ValueError else Ok tt
      else Raise OverflowError
  | _ => Raise ValueError
  end.
Proof.
  unfold sleep_check, is_nan.
  rewrite !eqb_spec, !leb_spec, !ltb_spec, m63, p63, z0. unfold SFeqb at 1.
  now destruct (SFcompare (Prim2SF d) (Prim2SF d)) as [[]|].
Qed.


Lemma sleep_check_zero (d : float) :
  (d =? 0)%float = true -> sleep_check d = Ok tt.
Proof.
  intros H0. rewrite sleep_check_spec, Prim2SF_nanoseconds.
  rewrite eqb_spec, z0 in H0. unfold SFeqb in H0.
  destruct (Prim2SF d) as [s|s| |s m e]; try discriminate.
  - now destruct s.
  - now destruct s.
  - now destruct s.
Qed.

(** A negative duration is never accepted: [ValueError] when its
    nanoseconds are at least -2^63, [OverflowError] below. *)
Lemma sleep_check_negative (d : float) :
  (d <? 0)%float = true ->
  sleep_check d =
  if (-0x1p+63 <=? nanoseconds d)%float then Raise ValueError
  else Raise OverflowError.
Proof.
  intros H0. rewrite sleep_check_spec, leb_spec, m63, Prim2SF_nanoseconds.
  rewrite ltb_spec, z0 in H0. unfold SFltb in H0.
  pose proof (Prim2SF_valid d) as Hv.
  destruct (Prim2SF d) as [s|s| |s m e]; try discriminate.
  - destruct s; [reflexivity | discriminate].
  - destruct s; [|discriminate]. rewrite SFcompare_refl_finite.
    destruct (SFmul_giga_sign true m e Hv) as [(m' & e' & E)|E]; rewrite E.
    + unfold SFleb at 2. unfold SFltb. cbn [SFcompare].
      rewrite andb_true_r. cbn [orb].
      now destruct (SFleb _ _).
    + reflexivity.
Qed.

Lemma nonpositive_cases (d : float) :
  (d <=? 0)%float = true -> (d <? 0)%float = false -> (d =? 0)%float = true.
Proof.
  rewrite leb_spec, ltb_spec, eqb_spec. unfold SFleb, SFltb, SFeqb.
  now destruct (SFcompare _ _) as [[]|].
Qed.


Lemma sleep_accepted (secs : float) (st : State) :
  sleep_check secs = Ok tt ->
  sleep secs st = (Ok tt, logged st [ESleep secs]).
Proof. intros H. unfold sleep. now rewrite H. Qed.

Lemma sleep_rejected (secs : float) (e : Exn) (st : State) :
  sleep_check secs = Raise e -> sleep secs st = (Raise e, st).
Proof. intros H. unfold sleep. now rewrite H. Qed.

End Clock.

(** ** Counters, frequency and identification *)

(** C9.  For a valid counter index, [get_counter] issues one read of two
    input registers at the base address the table holds for that index and
    returns [high * 65536 + low]; with 16-bit registers the result is an
    unsigned 32-bit number, and [low = 5], [high = 2] gives 131077. *)
Theorem get_counter_composes (self : ADAM6XXX) (index low high : Z)
  (st : State) :
  valid_index (counter_registers self) index ->
  0 <= low < 65536 ->
  0 <= high < 65536 ->
  tp_read_input_registers (client self) (log st)
    (table_at (counter_registers self) index) 2
  = Ok (mkRegisters [low; high]) ->
  get_counter self index st =
  (Ok (high * 65536 + low),
   logged st [EReadInputRegisters (table_at (counter_registers self) index) 2])
  /\ 0 <= high * 65536 + low < 2 ^ 32
  /\ (low = 5 -> high = 2 -> high * 65536 + low = 131077).
Proof.
  intros Hi Hl Hh Hr. split; [|split; [lia | intros -> ->; reflexivity]].
  unfold get_counter, bind, lift.
  rewrite (py_index_valid _ _ Hi), call_logged, Hr. reflexivity.
Qed.

Lemma get_counter_composes_witness :
  get_counter Sim.bench 1 fresh =
  (Ok 131077, logged fresh [EReadInputRegisters 2 2]).
Proof.
  refine (proj1 (get_counter_composes Sim.bench 1 5 2 fresh _ _ _ _)).
  - unfold valid_index; cbn; lia.
  - lia.
  - lia.
  - reflexivity.
Defined.

(** C8.  [get_module_name] issues one read of two input registers at
    [module_name]; its result, also stored in [name], is the segment of the
    low register followed by the segment of the high register, where a zero
    register gives the empty segment and any other register gives lowercase
    hexadecimal digits that read back as the register's value.  Registers
    0x41 and 0x42 give "4142"; 0 and 0x5A give "5a". *)
Theorem get_module_name_hexadecimal (self : ADAM6XXX) (low high : Z)
  (st : State) :
  0 <= low < 65536 ->
  0 <= high < 65536 ->
  tp_read_input_registers (client self) (log st) (module_name self) 2
  = Ok (mkRegisters [low; high]) ->
  get_module_name self st =
  (Ok (segment low ++ segment high)%string,
   {| name := (segment low ++ segment high)%string;
      connected := connected st;
      log := log st ++ [EReadInputRegisters (module_name self) 2] |})
  /\ segment 0 = EmptyString
  /\ (low <> 0 -> hex_value (segment low) = Some low)
  /\ (high <> 0 -> hex_value (segment high) = Some high)
  /\ (low = 65 -> high = 66 ->
      (segment low ++ segment high)%string = "4142")
  /\ (low = 0 -> high = 90 ->
      (segment low ++ segment high)%string = "5a").
Proof.
  intros Hl Hh Hr.
  assert (Hseg : forall z, 0 <= z -> z <> 0 ->
                           hex_value (segment z) = Some z).
  { intros z Hz Hne. unfold segment.
    replace (z =? 0) with false by (symmetry; apply Z.eqb_neq; exact Hne).
    apply hex_digits_value; exact Hz. }
  split; [|split; [reflexivity|split; [|split; [|split]]]].
  - unfold get_module_name. unfold bind at 1. rewrite call_logged, Hr.
    unfold bind at 1, lift. cbn [registers unpack2].
    unfold segment.
    rewrite <- (slice_hex low) by lia. rewrite <- (slice_hex high) by lia.
    generalize (slice_from 2 (hex low)) (slice_from 2 (hex high)).
    intros x y. unfold bind, set_name, get_name, ret, logged.
    destruct (low =? 0), (high =? 0);
      cbn [name connected log append]; rewrite ?append_empty_r; reflexivity.
  - intros Hne. apply Hseg; lia.
  - intros Hne. apply Hseg; lia.
  - intros -> ->. reflexivity.
  - intros -> ->. reflexivity.
Qed.

Lemma get_module_name_hexadecimal_witness :
  get_module_name Sim.bench fresh =
  (Ok "4142",
   {| name := "4142"; connected := false;
      log := [EReadInputRegisters 210 2] |}).
Proof.
  refine (proj1 (get_module_name_hexadecimal Sim.bench 65 66 fresh _ _ _)).
  - lia.
  - lia.
  - reflexivity.
Defined.

(** C2.  Whatever the registers hold, [get_frequency] at a valid counter
    index issues its single-register read and then raises [TypeError]: the
    list of registers, not the register, is divided by 10.0.  Dividing the
    register itself would give the documented hertz value, 12.3 for 123. *)
Theorem get_frequency_raises_TypeError (self : ADAM6XXX) (index : Z)
  (r : RegistersResponse) (st : State) :
  valid_index (counter_registers self) index ->
  tp_read_input_registers (client self) (log st)
    (table_at (counter_registers self) index) 1 = Ok r ->
  get_frequency self index st =
  (Raise TypeError,
   logged st [EReadInputRegisters (table_at (counter_registers self) index) 1])
  /\ truediv_float (VInt 123) 10%float = Ok (VFloat 0x1.899999999999ap+3%float).
Proof.
  intros Hi Hr. split; [|reflexivity].
  unfold get_frequency, bind, lift.
  rewrite (py_index_valid _ _ Hi), call_logged, Hr. reflexivity.
Qed.

Lemma get_frequency_raises_TypeError_witness :
  tp_read_input_registers (client Sim.bench) (log fresh) 0 1
  = Ok (mkRegisters [123])
  /\ get_frequency Sim.bench 0 fresh =
     (Raise TypeError, logged fresh [EReadInputRegisters 0 1]).
Proof.
  split; [reflexivity|].
  refine (proj1 (get_frequency_raises_TypeError Sim.bench 0
                   (mkRegisters [123]) fresh _ _)).
  - unfold valid_index; cbn; lia.
  - reflexivity.
Defined.

(** No call of [get_frequency] returns a value. *)
Lemma get_frequency_never_returns (self : ADAM6XXX) (index : Z)
  (st st' : State) (v : value) :
  get_frequency self index st <> (Ok v, st').
Proof.
  unfold get_frequency, bind, lift, call.
  destruct (py_index _ _); [|discriminate].
  destruct (tp_read_input_registers _ _ _ _); discriminate.
Qed.

(** ** Digital inputs *)

(** C4.  [get_digital_input] at a valid index issues one discrete-input
    read at the mapped address and nothing else, and returns the response
    object the client answered with, which is not a boolean: the state is
    left inside it, in [bits]. *)
Theorem get_digital_input_returns_response (self : ADAM6XXX) (index : Z)
  (r : BitsResponse) (st : State) :
  valid_index (digital_inputs self) index ->
  tp_read_discrete_inputs (client self) (log st)
    (table_at (digital_inputs self) index) = Ok r ->
  get_digital_input self index st =
  (Ok (VBits r),
   logged st [EReadDiscreteInputs (table_at (digital_inputs self) index)])
  /\ forall b : bool, VBits r <> VBool b.
Proof.
  intros Hi Hr. split; [|discriminate].
  unfold get_digital_input, bind, lift.
  rewrite (py_index_valid _ _ Hi), call_logged, Hr. reflexivity.
Qed.

Lemma get_digital_input_returns_response_witness :
  get_digital_input Sim.bench 0 fresh =
  (Ok (VBits (Sim.padded true)), logged fresh [EReadDiscreteInputs 0])
  /\ forall b : bool, VBits (Sim.padded true) <> VBool b.
Proof.
  refine (get_digital_input_returns_response Sim.bench 0
            (Sim.padded true) fresh _ _).
  - unfold valid_index; cbn; lia.
  - reflexivity.
Defined.

(** ** The pulse *)

(** What the two branches of [pulse_digital_output] run, for the states
    [s1], [s2], [s3]. *)
Lemma pulse_branch (self : ADAM6XXX) (index : Z)
  (polarity : Edges.operand) (verify : bool) (duration : float) (s1 s2 s3 : bool) :
  forced_sequence polarity = [s1; s2; s3] ->
  pulse_digital_output self index polarity verify duration =
  (set_digital_output self index s1 verify ;;
   set_digital_output self index s2 verify ;;
   sleep duration ;;
   set_digital_output self index s3 verify).
Proof.
  destruct polarity as [[]|z|z]; cbn [forced_sequence]; try discriminate.
  - intros [= <- <- <-]. reflexivity.
  - intros [= <- <- <-]. reflexivity.
Qed.

Lemma forced_sequence_defined (polarity : Edges.operand) :
  Edges.contains polarity = true ->
  exists s1 s2 s3, forced_sequence polarity = [s1; s2; s3].
Proof.
  destruct polarity as [[]|z|z]; cbn; try discriminate;
    now eexists _, _, _.
Qed.

(** On a transport that acknowledges and reads back, the three steps run
    to the end when the clock accepts the duration... *)
Lemma steps_complete (self : ADAM6XXX) (index a : Z) (verify : bool)
  (duration : float) (s1 s2 s3 : bool) (st : State) :
  py_index (digital_outputs self) index = Ok a ->
  acknowledges (client self) a ->
  (verify = true -> reads_back (client self) a) ->
  sleep_check duration = Ok tt ->
  (set_digital_output self index s1 verify ;;
   set_digital_output self index s2 verify ;;
   sleep duration ;;
   set_digital_output self index s3 verify) st =
  (Ok tt,
   logged st (force a s1 verify ++ force a s2 verify
              ++ ESleep duration :: force a s3 verify)).
Proof.
  intros Hi Hw Hr Hd.
  rewrite (bind_ok _ _ _ _ _
             (set_digital_output_forces self index a s1 verify st Hi Hw Hr)).
  rewrite (bind_ok _ _ _ _ _
             (set_digital_output_forces self index a s2 verify _ Hi Hw Hr)).
  rewrite (bind_ok _ _ _ _ _ (sleep_accepted duration _ Hd)).
  rewrite (set_digital_output_forces self index a s3 verify _ Hi Hw Hr).
  rewrite !logged_logged. reflexivity.
Qed.

(** ... and stop after the second when it does not. *)
Lemma steps_stop_at_sleep (self : ADAM6XXX) (index a : Z) (verify : bool)
  (duration : float) (s1 s2 s3 : bool) (e : Exn) (st : State) :
  py_index (digital_outputs self) index = Ok a ->
  acknowledges (client self) a ->
  (verify = true -> reads_back (client self) a) ->
  sleep_check duration = Raise e ->
  (set_digital_output self index s1 verify ;;
   set_digital_output self index s2 verify ;;
   sleep duration ;;
   set_digital_output self index s3 verify) st =
  (Raise e, logged st (force a s1 verify ++ force a s2 verify)).
Proof.
  intros Hi Hw Hr Hd.
  rewrite (bind_ok _ _ _ _ _
             (set_digital_output_forces self index a s1 verify st Hi Hw Hr)).
  rewrite (bind_ok _ _ _ _ _
             (set_digital_output_forces self index a s2 verify _ Hi Hw Hr)).
  rewrite (bind_raise _ _ _ _ _ (sleep_rejected duration e _ Hd)).
  rewrite !logged_logged. reflexivity.
Qed.



Lemma device_acknowledges (coils inputs : Z -> bool) (regs : Z -> Z)
  (a : Z) :
  acknowledges (Sim.device coils inputs regs) a.
Proof. intros h v. reflexivity. Defined.

Lemma coil_after_last (h : list Event) (a : Z) (v init : bool) :
  Sim.coil_after (h ++ [EWriteCoil a v]) a init = v.
Proof.
  unfold Sim.coil_after. rewrite fold_left_app. cbn.
  now rewrite Z.eqb_refl.
Defined.

Lemma device_reads_back (coils inputs : Z -> bool) (regs : Z -> Z)
  (a : Z) :
  reads_back (Sim.device coils inputs regs) a.
Proof.
  intros h v. exists (Sim.padded v). split; [|reflexivity].
  cbn. now rewrite coil_after_last.
Defined.



(** C10.  A polarity that equals neither RISING nor FALLING does not get
    past the membership assertion that opens [pulse_digital_output]: the
    call raises ([TypeError] from [in] for an operand that is no Enum
    member, [AssertionError] for a member of another enumeration) and the
    state, log included, is as before, so nothing was written or read. *)
Theorem pulse_rejects_unknown_polarity (self : ADAM6XXX) (index : Z)
  (polarity : Edges.operand) (verify : bool) (duration : float)
  (st : State) :
  Edges.equal polarity Edges.RISING = false ->
  Edges.equal polarity Edges.FALLING = false ->
  exists e,
    (e = TypeError \/ e = AssertionError)
    /\ pulse_digital_output self index polarity verify duration st =
       (Raise e, st).
Proof.
  intros Hr Hf. destruct polarity as [[]|z|z]; try discriminate.
  - exists TypeError. split; [now left | reflexivity].
  - exists AssertionError. split; [now right | reflexivity].
Qed.

Lemma pulse_rejects_unknown_polarity_witness :
  exists e,
    (e = TypeError \/ e = AssertionError)
    /\ pulse_digital_output Sim.bench 0 (Edges.Plain 3) true 0.5 fresh =
       (Raise e, fresh).
Proof.
  apply (pulse_rejects_unknown_polarity Sim.bench 0 (Edges.Plain 3) true 0.5
           fresh).
  - reflexivity.
  - reflexivity.
Defined.

(** C1, as stated, fails: a RISING pulse of duration 0 on the simulated
    ADAM-6052 succeeds, and three coil writes have been issued. *)
Lemma pulse_zero_duration_writes :
  (0 <=? 0)%float = true
  /\ pulse_digital_output Sim.bench 0 Edges.RISING false 0 fresh =
     (Ok tt,
      logged fresh
        [EWriteCoil 16 false; EWriteCoil 16 true; ESleep 0;
         EWriteCoil 16 false])
  /\ writes
       (log (snd (pulse_digital_output Sim.bench 0 Edges.RISING false 0
                    fresh))) = 3%nat.
Proof. repeat split. Qed.

(** C1, amended.  [pulse_digital_output] does not examine the duration
    before it touches the output.  For a valid index and a duration that is
    not positive, on a transport that acknowledges coil writes (and reads
    back what was written when [verify] is set): the first two force steps
    are always issued; a negative duration then makes the sleep raise and
    the third force step is not issued ([ValueError] when the duration's
    nanoseconds are at least -2^63, [OverflowError] below that, from about
    -9.22e9 s down to minus infinity); a zero duration is slept and the third
    force step follows, so the call succeeds. *)
Theorem pulse_nonpositive_duration (self : ADAM6XXX) (index : Z)
  (verify : bool) (duration : float) (st : State) :
  valid_index (digital_outputs self) index ->
  (duration <=? 0)%float = true ->
  acknowledges (client self) (table_at (digital_outputs self) index) ->
  (verify = true ->
   reads_back (client self) (table_at (digital_outputs self) index)) ->
  pulse_digital_output self index Edges.RISING verify duration st =
  (if (duration <? 0)%float
   then Raise (if (-0x1p+63 <=? nanoseconds duration)%float
               then ValueError else OverflowError)
   else Ok tt,
   logged st
     (force (table_at (digital_outputs self) index) false verify
      ++ force (table_at (digital_outputs self) index) true verify
      ++ (if (duration <? 0)%float then []
          else ESleep duration
               :: force (table_at (digital_outputs self) index) false
                    verify)))
  /\ pulse_digital_output self index Edges.FALLING verify duration st =
     (if (duration <? 0)%float
      then Raise (if (-0x1p+63 <=? nanoseconds duration)%float
                  then ValueError else OverflowError)
      else Ok tt,
      logged st
        (force (table_at (digital_outputs self) index) true verify
         ++ force (table_at (digital_outputs self) index) false verify
         ++ (if (duration <? 0)%float then []
             else ESleep duration
                  :: force (table_at (digital_outputs self) index) true
                       verify))).
Proof.
  intros Hi Hd Hw Hr. apply py_index_valid in Hi.
  rewrite (pulse_branch self index Edges.RISING verify duration
             false true false eq_refl).
  rewrite (pulse_branch self index Edges.FALLING verify duration
             true false true eq_refl).
  destruct (duration <? 0)%float eqn:Hn.
  - pose proof (sleep_check_negative duration Hn) as Hc.
    rewrite !app_nil_r.
    destruct (-0x1p+63 <=? nanoseconds duration)%float;
      split; now apply steps_stop_at_sleep.
  - pose proof (sleep_check_zero duration
                  (nonpositive_cases duration Hd Hn)) as Hz.
    split; now apply steps_complete.
Qed.

Lemma pulse_nonpositive_duration_witness :
  pulse_digital_output Sim.bench 0 Edges.FALLING true (-1) fresh =
  (Raise ValueError,
   logged fresh
     [EWriteCoil 16 true; EReadCoils 16; EWriteCoil 16 false;
      EReadCoils 16]).
Proof.
  refine (proj2 (pulse_nonpositive_duration Sim.bench 0 true (-1) fresh
                   _ _ _ _)).
  - unfold valid_index; cbn; lia.
  - reflexivity.
  - apply device_acknowledges.
  - intros _. apply device_reads_back.
Defined.

(** ** Verified writes *)

(** C6.  At an index that maps to coil [a]:
    - a verified [set_digital_output] whose write is acknowledged and whose
      read-back answers a first bit different from [state] has issued the
      write and then one read of [a], nothing more, and raises
      [AssertionError];
    - within a pulse, whose force steps are calls of [set_digital_output]
      with the caller's [verify], a step that raises (so, a step whose
      verification fails) ends the pulse with that exception in the state
      that step left: no later step runs and nothing is written back; the
      third step is reached only if the hold between the second and the
      third returned. *)
Theorem verification_mismatch_aborts (self : ADAM6XXX) (index a : Z) :
  py_index (digital_outputs self) index = Ok a ->
  (forall (state b : bool) (r : BitsResponse) (st : State),
      tp_write_coil (client self) (log st) a state = Ok tt ->
      tp_read_coils (client self) (log st ++ [EWriteCoil a state]) a
      = Ok r ->
      py_index (bits r) 0 = Ok b ->
      b <> state ->
      set_digital_output self index state true st =
      (Raise AssertionError,
       logged st [EWriteCoil a state; EReadCoils a]))
  /\ (forall (polarity : Edges.operand) (verify : bool) (duration : float)
        (s1 s2 s3 : bool) (e : Exn) (st : State),
         forced_sequence polarity = [s1; s2; s3] ->
         (forall st1,
             set_digital_output self index s1 verify st = (Raise e, st1) ->
             pulse_digital_output self index polarity verify duration st
             = (Raise e, st1))
         /\ (forall st1 st2,
                set_digital_output self index s1 verify st = (Ok tt, st1) ->
                set_digital_output self index s2 verify st1
                = (Raise e, st2) ->
                pulse_digital_output self index polarity verify duration st
                = (Raise e, st2))
         /\ (forall st1 st2 st3 st4,
                set_digital_output self index s1 verify st = (Ok tt, st1) ->
                set_digital_output self index s2 verify st1 = (Ok tt, st2) ->
                sleep duration st2 = (Ok tt, st3) ->
                set_digital_output self index s3 verify st3
                = (Raise e, st4) ->
                pulse_digital_output self index polarity verify duration st
                = (Raise e, st4))).
Proof.
  intros Hi. split.
  - intros state b r st Hw Hr Hb Hne.
    rewrite (set_digital_output_verified self index a state b r st
               Hi Hw Hr Hb).
    destruct b, state; try reflexivity; congruence.
  - intros polarity verify duration s1 s2 s3 e st Hp.
    rewrite (pulse_branch self index polarity verify duration s1 s2 s3 Hp).
    split; [|split].
    + intros st1 H1. now apply bind_raise.
    + intros st1 st2 H1 H2.
      rewrite (bind_ok _ _ _ _ _ H1). now apply bind_raise.
    + intros st1 st2 st3 st4 H1 H2 Hd H3.
      rewrite (bind_ok _ _ _ _ _ H1), (bind_ok _ _ _ _ _ H2).
      rewrite (bind_ok _ _ _ _ _ Hd).
      exact H3.
Qed.

Lemma verification_mismatch_aborts_witness :
  set_digital_output (ADAM6052 "10.0.0.1" Sim.stuck_low) 0 true true fresh =
  (Raise AssertionError, logged fresh [EWriteCoil 16 true; EReadCoils 16])
  /\ pulse_digital_output (ADAM6052 "10.0.0.1" Sim.stuck_low) 0
       Edges.RISING true 0.5 fresh =
     (Raise AssertionError,
      logged fresh
        [EWriteCoil 16 false; EReadCoils 16; EWriteCoil 16 true;
         EReadCoils 16]).
Proof.
  destruct (verification_mismatch_aborts
              (ADAM6052 "10.0.0.1" Sim.stuck_low) 0 16 eq_refl)
    as [Hset Hpulse].
  split.
  - apply (Hset true false (Sim.padded false) fresh).
    + reflexivity.
    + reflexivity.
    + reflexivity.
    + discriminate.
  - destruct (Hpulse Edges.RISING true 0.5%float false true false
                AssertionError fresh eq_refl) as (_ & Hsecond & _).
    apply (Hsecond (logged fresh [EWriteCoil 16 false; EReadCoils 16])).
    + reflexivity.
    + reflexivity.
Defined.

(** ** Indices outside the tables *)

(** C3, as stated, fails: the index -1 is outside [0 .. 7], yet
    [set_digital_output] accepts it and writes coil 23, the last entry of
    the ADAM-6052 output table. *)
Lemma negative_index_addresses_last_output :
  ~ valid_index (digital_outputs Sim.bench) (-1)
  /\ set_digital_output Sim.bench (-1) true false fresh =
     (Ok tt, logged fresh [EWriteCoil 23 true]).
Proof.
  split; [|reflexivity]. unfold valid_index. lia.
Qed.

(** C3, amended.  An index [i] with [i >= len] or [i < -len] for the table
    an operation reads makes that operation raise [IndexError] with the state
    unchanged, so before anything is asked of the client
    ([pulse_digital_output]: for a polarity in [Edges], which is asserted
    first); an address is only ever taken from inside the table.  An index
    with [-len <= i < 0] is not rejected: the operation is the one at index
    [len + i]. *)
Theorem index_outside_table_raises (self : ADAM6XXX) (index : Z)
  (st : State) :
  (out_of_range (digital_outputs self) index ->
   (forall state verify,
       set_digital_output self index state verify st = (Raise IndexError, st))
   /\ get_digital_output self index st = (Raise IndexError, st)
   /\ (forall polarity verify duration,
          Edges.contains polarity = true ->
          pulse_digital_output self index polarity verify duration st
          = (Raise IndexError, st)))
  /\ (out_of_range (digital_inputs self) index ->
      get_digital_input self index st = (Raise IndexError, st))
  /\ (out_of_range (counter_registers self) index ->
      get_counter self index st = (Raise IndexError, st)
      /\ get_frequency self index st = (Raise IndexError, st))
  /\ (forall a, py_index (digital_outputs self) index = Ok a ->
                In a (digital_outputs self))
  /\ (forall a, py_index (digital_inputs self) index = Ok a ->
                In a (digital_inputs self))
  /\ (forall a, py_index (counter_registers self) index = Ok a ->
                In a (counter_registers self))
  /\ (- Z.of_nat (List.length (digital_outputs self)) <= index < 0 ->
      set_digital_output self index =
      set_digital_output self
        (index + Z.of_nat (List.length (digital_outputs self)))
      /\ get_digital_output self index =
         get_digital_output self
           (index + Z.of_nat (List.length (digital_outputs self)))
      /\ pulse_digital_output self index =
         pulse_digital_output self
           (index + Z.of_nat (List.length (digital_outputs self))))
  /\ (- Z.of_nat (List.length (digital_inputs self)) <= index < 0 ->
      get_digital_input self index =
      get_digital_input self
        (index + Z.of_nat (List.length (digital_inputs self))))
  /\ (- Z.of_nat (List.length (counter_registers self)) <= index < 0 ->
      get_counter self index =
      get_counter self
        (index + Z.of_nat (List.length (counter_registers self)))
      /\ get_frequency self index =
         get_frequency self
           (index + Z.of_nat (List.length (counter_registers self)))).
Proof.
  split; [|split; [|split; [|split; [|split; [|split; [|split; [|split]]]]]]].
  - intros H. pose proof (py_index_out_of_range _ _ H) as Hi.
    split; [|split].
    + intros state verify. now apply set_digital_output_rejects.
    + unfold get_digital_output, bind, lift. now rewrite Hi.
    + intros polarity verify duration Hp.
      destruct (forced_sequence_defined polarity Hp) as (s1 & s2 & s3 & Hs).
      rewrite (pulse_branch self index polarity verify duration s1 s2 s3 Hs).
      apply bind_raise. now apply set_digital_output_rejects.
  - intros H. unfold get_digital_input, bind, lift.
    now rewrite (py_index_out_of_range _ _ H).
  - intros H. pose proof (py_index_out_of_range _ _ H) as Hi. split.
    + unfold get_counter, bind, lift. now rewrite Hi.
    + unfold get_frequency, bind, lift. now rewrite Hi.
  - intros a. apply py_index_in.
  - intros a. apply py_index_in.
  - intros a. apply py_index_in.
  - intros H. pose proof (py_index_wraps _ _ H) as Hi. split; [|split].
    + unfold set_digital_output, get_digital_output. now rewrite Hi.
    + unfold get_digital_output. now rewrite Hi.
    + unfold pulse_digital_output, set_digital_output, get_digital_output.
      now rewrite Hi.
  - intros H. unfold get_digital_input. now rewrite (py_index_wraps _ _ H).
  - intros H. pose proof (py_index_wraps _ _ H) as Hi. split.
    + unfold get_counter. now rewrite Hi.
    + unfold get_frequency. now rewrite Hi.
Qed.

Lemma index_outside_table_raises_witness :
  set_digital_output Sim.bench 8 true true fresh = (Raise IndexError, fresh)
  /\ get_counter Sim.bench (-9) fresh = (Raise IndexError, fresh)
  /\ get_digital_output Sim.bench (-1) = get_digital_output Sim.bench 7.
Proof.
  split; [|split].
  - refine (proj1 (proj1 (index_outside_table_raises Sim.bench 8 fresh) _)
              true true).
    unfold out_of_range; cbn; lia.
  - refine (proj1 (proj1 (proj2 (proj2
              (index_outside_table_raises Sim.bench (-9) fresh))) _)).
    unfold out_of_range; cbn; lia.
  - refine (proj1 (proj2 (proj1 (proj2 (proj2 (proj2 (proj2 (proj2 (proj2
              (index_outside_table_raises Sim.bench (-1) fresh))))))) _))).
    cbn; lia.
Defined.

(** ** Connecting *)

(** The identification read is logged once, whatever it answers, and
    leaves [connected] alone. *)
Lemma get_module_name_logs (self : ADAM6XXX) (st : State) :
  exists r st',
    get_module_name self st = (r, st')
    /\ connected st' = connected st
    /\ log st' = log st ++ [EReadInputRegisters (module_name self) 2].
Proof.
  unfold get_module_name. unfold bind at 1. rewrite call_logged.
  destruct (tp_read_input_registers _ _ _ _) as [r|e];
    [|eexists _, _; split; [reflexivity | split; reflexivity]].
  unfold bind at 1, lift at 1.
  destruct (unpack2 (registers r)) as [[low high]|e];
    [|eexists _, _; split; [reflexivity | split; reflexivity]].
  unfold bind, set_name, get_name, ret.
  destruct (low =? 0), (high =? 0);
    eexists _, _; (split; [reflexivity | split; reflexivity]).
Qed.

(** C5, as stated, fails: when the transport reports that it could not
    be opened, [connect] still issues the identification read. *)
Lemma connect_identifies_unopened_transport :
  tp_connect Sim.unreachable (log fresh) = Ok false
  /\ connect (ADAM6052 "10.0.0.1" Sim.unreachable) fresh =
     (Raise ConnectionException,
      {| name := ""; connected := false;
         log := [EConnect; EReadInputRegisters 210 2] |})
  /\ In (EReadInputRegisters 210 2)
       (log (snd (connect (ADAM6052 "10.0.0.1" Sim.unreachable) fresh))).
Proof.
  split; [reflexivity|]. split; [reflexivity|]. cbn. auto.
Qed.

(** C5, amended.  [connect] asks the transport to connect once and stores
    the answer in [connected]; whether the answer is true or false it then
    performs the identification read, once; it returns the stored answer if
    that read and its decoding succeed and raises what they raise otherwise.
    If the transport's [connect] itself raises, the exception propagates
    with nothing read.  Nothing is retried. *)
Theorem connect_always_identifies (self : ADAM6XXX) (st : State) :
  (forall c : bool,
      tp_connect (client self) (log st) = Ok c ->
      exists (r : Result string) (st' : State),
        get_module_name self
          {| name := name st; connected := c; log := log st ++ [EConnect] |}
        = (r, st')
        /\ connect self st =
           (match r with Ok _ => Ok c | Raise e => Raise e end, st')
        /\ connected st' = c
        /\ log st' =
           log st ++ [EConnect; EReadInputRegisters (module_name self) 2])
  /\ (forall e : Exn,
         tp_connect (client self) (log st) = Raise e ->
         connect self st = (Raise e, logged st [EConnect])).
Proof.
  split.
  - intros c Hc.
    destruct (get_module_name_logs self
                {| name := name st; connected := c;
                   log := log st ++ [EConnect] |})
      as (r & st' & Hrun & Hconn & Hlog).
    exists r, st'. cbn in Hconn, Hlog. rewrite <- app_assoc in Hlog.
    repeat split; try assumption.
    unfold connect. unfold bind at 1. rewrite call_logged, Hc.
    unfold bind at 1, set_connected, logged. cbn [name connected log].
    unfold bind at 1. rewrite Hrun.
    destruct r; [|reflexivity].
    unfold get_connected. now rewrite Hconn.
  - intros e He. unfold connect. apply bind_raise.
    now rewrite call_logged, He.
Qed.

Lemma connect_always_identifies_witness :
  connect Sim.bench fresh =
  (Ok true,
   {| name := "4142"; connected := true;
      log := [EConnect; EReadInputRegisters 210 2] |}).
Proof.
  destruct (proj1 (connect_always_identifies Sim.bench fresh) true eq_refl)
    as (r & st' & Hrun & Hconnect & _).
  cbv in Hrun. injection Hrun as <- <-. exact Hconnect.
Defined.

(** ** Frames: what the operations leave alone *)

Section Frame.
Variable R : State -> State -> Prop.
Hypothesis R_refl : forall st, R st st.
Hypothesis R_trans : forall st1 st2 st3, R st1 st2 -> R st2 st3 -> R st1 st3.

Lemma respects_pure {A : Type} (r : Result A) : respects R (lift r).
Proof. intros st. apply R_refl. Qed.

Lemma respects_bind {A B : Type} (m : M A) (k : A -> M B) :
  respects R m ->
  (forall a st st', m st = (Ok a, st') -> respects R (k a)) ->
  respects R (bind m k).
Proof.
  intros Hm Hk st. unfold bind. specialize (Hm st).
  destruct (m st) as [[a|e] st1] eqn:E; cbn in Hm.
  - eapply R_trans; [exact Hm|]. eapply Hk; eauto.
  - exact Hm.
Qed.
End Frame.

Lemma extends_by_refl (P : Event -> bool) (st : State) : extends_by P st st.
Proof. exists []. now rewrite app_nil_r. Qed.

Lemma extends_by_trans (P : Event -> bool) (st1 st2 st3 : State) :
  extends_by P st1 st2 -> extends_by P st2 st3 -> extends_by P st1 st3.
Proof.
  intros (es & H1 & P1) (fs & H2 & P2). exists (es ++ fs). split.
  - now rewrite H2, H1, app_assoc.
  - now rewrite forallb_app, P1, P2.
Qed.

Lemma same_identity_refl (st : State) : same_identity st st.
Proof. now split. Qed.

Lemma same_identity_trans (st1 st2 st3 : State) :
  same_identity st1 st2 -> same_identity st2 st3 -> same_identity st1 st3.
Proof. intros [H1 H2] [H3 H4]. split; congruence. Qed.

Lemma emits_pure {A : Type} (P : Event -> bool) (r : Result A) :
  emits_only P (lift r).
Proof. apply respects_pure, extends_by_refl. Qed.

Lemma emits_bind {A B : Type} (P : Event -> bool) (m : M A) (k : A -> M B) :
  emits_only P m ->
  (forall a st st', m st = (Ok a, st') -> emits_only P (k a)) ->
  emits_only P (bind m k).
Proof.
  intros Hm Hk.
  exact (respects_bind _ (extends_by_trans P) m k Hm Hk).
Qed.

Lemma emits_call {A : Type} (P : Event -> bool) (e : Event)
  (answer : list Event -> Result A) :
  P e = true -> emits_only P (call e answer).
Proof. intros H st. exists [e]. cbn. now rewrite H. Qed.

Lemma emits_assert (P : Event -> bool) (c : bool) : emits_only P (assert c).
Proof. intros st. destruct c; apply extends_by_refl. Qed.

Lemma emits_sleep (P : Event -> bool) (secs : float) :
  (forall d, P (ESleep d) = true) -> emits_only P (sleep secs).
Proof.
  intros H. unfold sleep. destruct (sleep_check secs).
  - now apply emits_call.
  - intros st. apply extends_by_refl.
Qed.

Lemma keeps_pure {A : Type} (r : Result A) : keeps_identity (lift r).
Proof. apply respects_pure, same_identity_refl. Qed.

Lemma keeps_bind {A B : Type} (m : M A) (k : A -> M B) :
  keeps_identity m ->
  (forall a st st', m st = (Ok a, st') -> keeps_identity (k a)) ->
  keeps_identity (bind m k).
Proof.
  intros Hm Hk.
  exact (respects_bind _ same_identity_trans m k Hm Hk).
Qed.

Lemma keeps_call {A : Type} (e : Event) (answer : list Event -> Result A) :
  keeps_identity (call e answer).
Proof. intros st. now split. Qed.

Lemma keeps_assert (c : bool) : keeps_identity (assert c).
Proof. intros st. destruct c; apply same_identity_refl. Qed.

Lemma keeps_sleep (secs : float) : keeps_identity (sleep secs).
Proof.
  unfold sleep. destruct (sleep_check secs).
  - apply keeps_call.
  - intros st. apply same_identity_refl.
Qed.

Lemma lift_ok {A : Type} (r : Result A) (a : A) (st st' : State) :
  lift r st = (Ok a, st') -> r = Ok a.
Proof. unfold lift. now intros [= -> _]. Qed.

Lemma writes_app (h k : list Event) :
  writes (h ++ k) = (writes h + writes k)%nat.
Proof. unfold writes. now rewrite filter_app, length_app. Qed.

Lemma passive_writes (es : list Event) :
  forallb passive es = true -> writes es = 0%nat.
Proof.
  induction es as [|e es IH]; [reflexivity|]. cbn [forallb].
  intros H. apply andb_true_iff in H as [He Hes].
  destruct e; try discriminate; cbn; now apply IH.
Qed.

Lemma emits_ret {A : Type} (P : Event -> bool) (a : A) : emits_only P (ret a).
Proof. intros st. apply extends_by_refl. Qed.

Lemma keeps_ret {A : Type} (a : A) : keeps_identity (ret a).
Proof. intros st. apply same_identity_refl. Qed.

(** The events of the operations on the outputs, for any property [P] of
    events that holds of the writes, reads and sleeps they may issue. *)
Lemma emits_get_digital_output (P : Event -> bool) (self : ADAM6XXX)
  (index : Z) :
  (forall a, py_index (digital_outputs self) index = Ok a ->
             P (EReadCoils a) = true) ->
  emits_only P (get_digital_output self index).
Proof.
  intros Hr. unfold get_digital_output.
  apply emits_bind; [apply emits_pure|]. intros a st st' Ha.
  apply lift_ok in Ha.
  apply emits_bind; [apply emits_call; auto|]. intros r _ _ _.
  apply emits_pure.
Qed.

Lemma emits_set_digital_output (P : Event -> bool) (self : ADAM6XXX)
  (index : Z) (state verify : bool) :
  (forall a, py_index (digital_outputs self) index = Ok a ->
             P (EWriteCoil a state) = true) ->
  (verify = true ->
   forall a, py_index (digital_outputs self) index = Ok a ->
             P (EReadCoils a) = true) ->
  emits_only P (set_digital_output self index state verify).
Proof.
  intros Hw Hr. unfold set_digital_output.
  apply emits_bind; [apply emits_pure|]. intros a st st' Ha.
  apply lift_ok in Ha.
  apply emits_bind; [apply emits_call; auto|]. intros _ _ _ _.
  destruct verify; [|apply emits_ret].
  apply emits_bind; [apply emits_get_digital_output; auto|].
  intros b _ _ _. apply emits_assert.
Qed.

Lemma emits_pulse_digital_output (P : Event -> bool) (self : ADAM6XXX)
  (index : Z) (polarity : Edges.operand) (verify : bool) (duration : float) :
  (forall a s, py_index (digital_outputs self) index = Ok a ->
               P (EWriteCoil a s) = true) ->
  (verify = true ->
   forall a, py_index (digital_outputs self) index = Ok a ->
             P (EReadCoils a) = true) ->
  (forall d, P (ESleep d) = true) ->
  emits_only P (pulse_digital_output self index polarity verify duration).
Proof.
  intros Hw Hr Hs.
  assert (Hstep : forall s,
             emits_only P (set_digital_output self index s verify)).
  { intros s. apply emits_set_digital_output; auto. }
  unfold pulse_digital_output.
  apply emits_bind; [apply emits_pure|]. intros is_member _ _ _.
  apply emits_bind; [apply emits_assert|]. intros _ _ _ _.
  destruct (Edges.equal polarity Edges.RISING);
    [|destruct (Edges.equal polarity Edges.FALLING); [|apply emits_ret]].
  all: apply emits_bind; [apply Hstep|]; intros _ _ _ _.
  all: apply emits_bind; [apply Hstep|]; intros _ _ _ _.
  all: apply emits_bind; [apply emits_sleep; exact Hs|]; intros _ _ _ _.
  all: apply Hstep.
Qed.

Lemma emits_get_module_name (P : Event -> bool) (self : ADAM6XXX) :
  P (EReadInputRegisters (module_name self) 2) = true ->
  emits_only P (get_module_name self).
Proof.
  intros HP st.
  destruct (get_module_name_logs self st) as (r & st' & Hrun & _ & Hlog).
  rewrite Hrun. eexists. split; [exact Hlog|]. cbn. now rewrite HP.
Qed.

Lemma keeps_get_digital_output (self : ADAM6XXX) (index : Z) :
  keeps_identity (get_digital_output self index).
Proof.
  unfold get_digital_output.
  apply keeps_bind; [apply keeps_pure|]. intros a _ _ _.
  apply keeps_bind; [apply keeps_call|]. intros r _ _ _. apply keeps_pure.
Qed.

Lemma keeps_set_digital_output (self : ADAM6XXX) (index : Z)
  (state verify : bool) :
  keeps_identity (set_digital_output self index state verify).
Proof.
  unfold set_digital_output.
  apply keeps_bind; [apply keeps_pure|]. intros a _ _ _.
  apply keeps_bind; [apply keeps_call|]. intros _ _ _ _.
  destruct verify; [|apply keeps_ret].
  apply keeps_bind; [apply keeps_get_digital_output|].
  intros b _ _ _. apply keeps_assert.
Qed.

(** ** Properties beyond the claims *)

(** X1.  The operations that only read ([connect], [get_module_name],
    [get_digital_output], [get_digital_input], [get_counter],
    [get_frequency]) never issue a coil write and never sleep, whatever the
    transport answers and whatever the index: every event they add to the
    log is a connect or a read. *)
Theorem reads_never_write (self : ADAM6XXX) (index : Z) :
  emits_only passive (connect self)
  /\ emits_only passive (get_module_name self)
  /\ emits_only passive (get_digital_output self index)
  /\ emits_only passive (get_digital_input self index)
  /\ emits_only passive (get_counter self index)
  /\ emits_only passive (get_frequency self index)
  /\ (forall st,
         writes (log (snd (connect self st))) = writes (log st)
         /\ writes (log (snd (get_digital_output self index st)))
            = writes (log st)
         /\ writes (log (snd (get_digital_input self index st)))
            = writes (log st)
         /\ writes (log (snd (get_counter self index st)))
            = writes (log st)).
Proof.
  assert (Hname : emits_only passive (get_module_name self))
    by now apply emits_get_module_name.
  assert (Hconnect : emits_only passive (connect self)).
  { unfold connect.
    apply emits_bind; [now apply emits_call|]. intros c _ _ _.
    apply emits_bind;
      [intros st; exists []; cbn; now rewrite app_nil_r|]. intros _ _ _ _.
    apply emits_bind; [exact Hname|]. intros _ _ _ _.
    intros st. apply extends_by_refl. }
  assert (Hdo : emits_only passive (get_digital_output self index))
    by now apply emits_get_digital_output.
  assert (Hdi : emits_only passive (get_digital_input self index)).
  { unfold get_digital_input.
    apply emits_bind; [apply emits_pure|]. intros a _ _ _.
    apply emits_bind; [now apply emits_call|]. intros r _ _ _.
    apply emits_ret. }
  assert (Hc : emits_only passive (get_counter self index)).
  { unfold get_counter.
    apply emits_bind; [apply emits_pure|]. intros a _ _ _.
    apply emits_bind; [now apply emits_call|]. intros r _ _ _.
    apply emits_bind; [apply emits_pure|]. intros [low high] _ _ _.
    apply emits_ret. }
  assert (Hf : emits_only passive (get_frequency self index)).
  { unfold get_frequency.
    apply emits_bind; [apply emits_pure|]. intros a _ _ _.
    apply emits_bind; [now apply emits_call|]. intros r _ _ _.
    apply emits_pure. }
  assert (Hcount : forall (A : Type) (m : M A),
             emits_only passive m ->
             forall st, writes (log (snd (m st))) = writes (log st)).
  { intros A m Hm st. destruct (Hm st) as (es & -> & Hes).
    rewrite writes_app, (passive_writes es Hes). lia. }
  repeat split; auto.
Qed.

(** X2.  Without verification nothing is read: every event a
    [set_digital_output] or a [pulse_digital_output] with [verify = False]
    adds to the log is a coil write or a sleep, for every index, polarity,
    duration and transport. *)
Theorem unverified_never_reads (self : ADAM6XXX) (index : Z) :
  (forall state,
      emits_only write_or_sleep (set_digital_output self index state false))
  /\ (forall polarity duration,
         emits_only write_or_sleep
           (pulse_digital_output self index polarity false duration)).
Proof.
  split.
  - intros state. apply emits_set_digital_output; [reflexivity|discriminate].
  - intros polarity duration.
    apply emits_pulse_digital_output; [reflexivity|discriminate|reflexivity].
Qed.

(** X3.  At an index that maps to coil [a], [set_digital_output],
    [get_digital_output] and [pulse_digital_output] touch no other coil and
    nothing but coils: every event they add to the log is a write of [a], a
    read of [a] or a sleep, whatever the transport answers. *)
Theorem outputs_touch_one_coil (self : ADAM6XXX) (index a : Z) :
  py_index (digital_outputs self) index = Ok a ->
  (forall state verify,
      emits_only (on_coil a) (set_digital_output self index state verify))
  /\ emits_only (on_coil a) (get_digital_output self index)
  /\ (forall polarity verify duration,
         emits_only (on_coil a)
           (pulse_digital_output self index polarity verify duration)).
Proof.
  intros Hi.
  assert (Hsame : forall a', py_index (digital_outputs self) index = Ok a' ->
                             (a' =? a) = true).
  { intros a' Ha'. rewrite Hi in Ha'. injection Ha' as <-.
    apply Z.eqb_refl. }
  split; [|split].
  - intros state verify. apply emits_set_digital_output; cbn; auto.
  - apply emits_get_digital_output; cbn; auto.
  - intros polarity verify duration.
    apply emits_pulse_digital_output; cbn; auto.
Qed.

Lemma outputs_touch_one_coil_witness :
  emits_only (on_coil 18)
    (pulse_digital_output Sim.bench 2 Edges.FALLING true 0.5).
Proof.
  refine (proj2 (proj2 (outputs_touch_one_coil Sim.bench 2 18 _))
            Edges.FALLING true 0.5%float).
  reflexivity.
Defined.

(** X4.  Only [connect] and [get_module_name] assign [name] and
    [connected]: the six input/output operations leave both as they found
    them, whether they return or raise. *)
Theorem io_keeps_identity (self : ADAM6XXX) (index : Z) :
  (forall state verify,
      keeps_identity (set_digital_output self index state verify))
  /\ keeps_identity (get_digital_output self index)
  /\ keeps_identity (get_digital_input self index)
  /\ (forall polarity verify duration,
         keeps_identity
           (pulse_digital_output self index polarity verify duration))
  /\ keeps_identity (get_counter self index)
  /\ keeps_identity (get_frequency self index).
Proof.
  split; [|split; [|split; [|split; [|split]]]].
  - intros state verify. apply keeps_set_digital_output.
  - apply keeps_get_digital_output.
  - unfold get_digital_input.
    apply keeps_bind; [apply keeps_pure|]. intros a _ _ _.
    apply keeps_bind; [apply keeps_call|]. intros r _ _ _. apply keeps_ret.
  - intros polarity verify duration. unfold pulse_digital_output.
    apply keeps_bind; [apply keeps_pure|]. intros is_member _ _ _.
    apply keeps_bind; [apply keeps_assert|]. intros _ _ _ _.
    destruct (Edges.equal polarity Edges.RISING);
      [|destruct (Edges.equal polarity Edges.FALLING); [|apply keeps_ret]].
    all: apply keeps_bind; [apply keeps_set_digital_output|];
      intros _ _ _ _.
    all: apply keeps_bind; [apply keeps_set_digital_output|];
      intros _ _ _ _.
    all: apply keeps_bind; [apply keeps_sleep|]; intros _ _ _ _.
    all: apply keeps_set_digital_output.
  - unfold get_counter.
    apply keeps_bind; [apply keeps_pure|]. intros a _ _ _.
    apply keeps_bind; [apply keeps_call|]. intros r _ _ _.
    apply keeps_bind; [apply keeps_pure|]. intros [low high] _ _ _.
    apply keeps_ret.
  - unfold get_frequency.
    apply keeps_bind; [apply keeps_pure|]. intros a _ _ _.
    apply keeps_bind; [apply keeps_call|]. intros r _ _ _.
    apply keeps_pure.
Qed.

(** ** Writing and reading back *)

Lemma last_written_app (a : Z) (h k : list Event) :
  last_written a (h ++ k) =
  match last_written a k with
  | Some v => Some v
  | None => last_written a h
  end.
Proof.
  induction h as [|e h IH]; cbn.
  - now destruct (last_written a k).
  - rewrite IH. now destruct (last_written a k).
Qed.

Lemma last_written_force (a : Z) (h : list Event) (state verify : bool) :
  last_written a (h ++ force a state verify) = Some state.
Proof.
  rewrite last_written_app. unfold force.
  destruct verify; cbn; now rewrite Z.eqb_refl.
Qed.

Lemma remembers_reads_back (tp : Transport) (a : Z) :
  remembers tp a -> reads_back tp a.
Proof.
  intros [_ Hr] h v. apply Hr.
  rewrite last_written_app. cbn. now rewrite Z.eqb_refl.
Qed.

Lemma device_remembers (coils inputs : Z -> bool) (regs : Z -> Z) (a : Z) :
  remembers (Sim.device coils inputs regs) a.
Proof.
  split; [apply device_acknowledges|].
  intros h v Hv. exists (Sim.padded (Sim.coil_after h a (coils a))).
  split; [reflexivity|]. cbn. f_equal.
  revert v Hv. induction h as [|e h IH] using rev_ind; [discriminate|].
  intros v. rewrite last_written_app. unfold Sim.coil_after.
  rewrite fold_left_app. cbn [fold_left].
  destruct e; cbn; try (intros Hv; now apply IH).
  destruct (address =? a); [now intros [= <-]|].
  intros Hv; now apply IH.
Qed.

(** X5.  On a transport that remembers coil [a], a write through an index
    mapped to [a] followed by [get_digital_output] of that index returns the
    state written, with or without verification. *)
Theorem set_then_get (self : ADAM6XXX) (index a : Z) (state verify : bool)
  (st : State) :
  py_index (digital_outputs self) index = Ok a ->
  remembers (client self) a ->
  (set_digital_output self index state verify ;;
   get_digital_output self index) st =
  (Ok state, logged st (force a state verify ++ [EReadCoils a])).
Proof.
  intros Hi Hm.
  rewrite (bind_ok _ _ _ _ _
             (set_digital_output_forces self index a state verify st Hi
                (proj1 Hm) (fun _ => remembers_reads_back _ _ Hm))).
  destruct (proj2 Hm (log st ++ force a state verify) state
              (last_written_force a (log st) state verify))
    as (r & Hread & Hbit).
  rewrite (get_digital_output_answered self index a r
             (logged st (force a state verify)) Hi Hread), Hbit.
  now rewrite logged_logged.
Qed.

Lemma set_then_get_witness :
  (set_digital_output Sim.bench 3 false true ;;
   get_digital_output Sim.bench 3) fresh =
  (Ok false,
   logged fresh [EWriteCoil 19 false; EReadCoils 19; EReadCoils 19]).
Proof.
  refine (set_then_get Sim.bench 3 19 false true fresh _ _).
  - reflexivity.
  - apply device_remembers.
Defined.



(** X7.  A verified write whose coil write is acknowledged and whose
    read-back is answered succeeds exactly when the first bit read back
    equals the state written; either way one write and one read of the coil
    have been issued. *)
Theorem verified_write_succeeds_iff (self : ADAM6XXX) (index a : Z)
  (state b : bool) (r : BitsResponse) (st : State) :
  py_index (digital_outputs self) index = Ok a ->
  tp_write_coil (client self) (log st) a state = Ok tt ->
  tp_read_coils (client self) (log st ++ [EWriteCoil a state]) a = Ok r ->
  py_index (bits r) 0 = Ok b ->
  (fst (set_digital_output self index state true st) = Ok tt <-> b = state)
  /\ snd (set_digital_output self index state true st) =
     logged st [EWriteCoil a state; EReadCoils a].
Proof.
  intros Hi Hw Hr Hb.
  rewrite (set_digital_output_verified self index a state b r st
             Hi Hw Hr Hb).
  split; [|reflexivity]. cbn [fst].
  destruct b, state; cbn; split; congruence.
Qed.

Lemma verified_write_succeeds_iff_witness :
  fst (set_digital_output Sim.bench 5 true true fresh) = Ok tt <-> true = true.
Proof.
  refine (proj1 (verified_write_succeeds_iff Sim.bench 5 21 true true
                   (Sim.padded true) fresh _ _ _ _)); reflexivity.
Defined.

(** X8.  How a write fails other than by a mismatch.  If the transport
    raises on the coil write, the exception propagates and no read-back is
    attempted, even with [verify] set.  If the read-back raises, that
    exception propagates.  If the read-back answers a response without any
    bit, the verification raises [IndexError]. *)
Theorem set_digital_output_failures (self : ADAM6XXX) (index a : Z)
  (state : bool) (st : State) :
  py_index (digital_outputs self) index = Ok a ->
  (forall e verify,
      tp_write_coil (client self) (log st) a state = Raise e ->
      set_digital_output self index state verify st =
      (Raise e, logged st [EWriteCoil a state]))
  /\ (forall e,
         tp_write_coil (client self) (log st) a state = Ok tt ->
         tp_read_coils (client self) (log st ++ [EWriteCoil a state]) a
         = Raise e ->
         set_digital_output self index state true st =
         (Raise e, logged st [EWriteCoil a state; EReadCoils a]))
  /\ (tp_write_coil (client self) (log st) a state = Ok tt ->
      tp_read_coils (client self) (log st ++ [EWriteCoil a state]) a
      = Ok (mkBits []) ->
      set_digital_output self index state true st =
      (Raise IndexError, logged st [EWriteCoil a state; EReadCoils a])).
Proof.
  intros Hi. split; [|split].
  - intros e verify Hw. unfold set_digital_output.
    unfold bind at 1, lift at 1. rewrite Hi.
    apply bind_raise. now rewrite call_logged, Hw.
  - intros e Hw Hr. unfold set_digital_output.
    unfold bind at 1, lift at 1. rewrite Hi.
    unfold bind at 1. rewrite call_logged, Hw.
    apply bind_raise. unfold get_digital_output.
    unfold bind at 1, lift at 1. rewrite Hi.
    apply bind_raise. rewrite call_logged. cbn [log logged].
    now rewrite Hr, logged_logged.
  - intros Hw Hr. unfold set_digital_output.
    unfold bind at 1, lift at 1. rewrite Hi.
    unfold bind at 1. rewrite call_logged, Hw.
    apply bind_raise.
    rewrite (get_digital_output_answered self index a (mkBits [])
               (logged st [EWriteCoil a state]) Hi Hr).
    now rewrite logged_logged.
Qed.

Lemma set_digital_output_failures_witness :
  set_digital_output (ADAM6052 "10.0.0.1" Sim.unreachable) 0 true true fresh =
  (Raise ConnectionException, logged fresh [EWriteCoil 16 true]).
Proof.
  refine (proj1 (set_digital_output_failures
                   (ADAM6052 "10.0.0.1" Sim.unreachable) 0 16 true fresh _)
            ConnectionException true _); reflexivity.
Defined.

(** ** Identification and counters, further *)

(** The name read from two non-negative registers. *)
Lemma get_module_name_answered (self : ADAM6XXX) (low high : Z)
  (st : State) :
  0 <= low -> 0 <= high ->
  tp_read_input_registers (client self) (log st) (module_name self) 2
  = Ok (mkRegisters [low; high]) ->
  get_module_name self st =
  (Ok (segment low ++ segment high)%string,
   {| name := (segment low ++ segment high)%string;
      connected := connected st;
      log := log st ++ [EReadInputRegisters (module_name self) 2] |}).
Proof.
  intros Hl Hh Hr.
  unfold get_module_name. unfold bind at 1. rewrite call_logged, Hr.
  unfold bind at 1, lift. cbn [registers unpack2].
  unfold segment.
  rewrite <- (slice_hex low) by lia. rewrite <- (slice_hex high) by lia.
  generalize (slice_from 2 (hex low)) (slice_from 2 (hex high)).
  intros x y. unfold bind, set_name, get_name, ret, logged.
  destruct (low =? 0), (high =? 0);
    cbn [name connected log append]; rewrite ?append_empty_r; reflexivity.
Qed.




(** X10.  The module name does not tell which register a value came from:
    registers [(0, z)] and registers [(z, 0)] give the same name. *)
Theorem module_name_forgets_position (self self' : ADAM6XXX)
  (st st' : State) (z : Z) :
  0 <= z < 65536 ->
  tp_read_input_registers (client self) (log st) (module_name self) 2
  = Ok (mkRegisters [0; z]) ->
  tp_read_input_registers (client self') (log st') (module_name self') 2
  = Ok (mkRegisters [z; 0]) ->
  fst (get_module_name self st) = fst (get_module_name self' st').
Proof.
  intros Hz H1 H2.
  rewrite (get_module_name_answered self 0 z st) by (lia || assumption).
  rewrite (get_module_name_answered self' z 0 st') by (lia || assumption).
  cbn [fst]. f_equal. unfold segment at 1 4. cbn [Z.eqb append].
  now rewrite append_empty_r.
Qed.

Lemma module_name_forgets_position_witness :
  fst (get_module_name
         (ADAM6052 "10.0.0.1"
            (Sim.device (fun _ => false) (fun _ => false)
               (fun a => if a =? 211 then 90 else 0))) fresh)
  = fst (get_module_name
           (ADAM6052 "10.0.0.1"
              (Sim.device (fun _ => false) (fun _ => false)
                 (fun a => if a =? 210 then 90 else 0))) fresh).
Proof.
  refine (module_name_forgets_position _ _ fresh fresh 90 _ _ _).
  - lia.
  - reflexivity.
  - reflexivity.
Defined.

Lemma length_append (s t : string) :
  String.length (s ++ t) = (String.length s + String.length t)%nat.
Proof. induction s as [|c s IH]; cbn; [reflexivity | now rewrite IH]. Qed.

Lemma hex_digits_fuel_length (fuel : nat) :
  forall (z : Z) (n : nat),
    0 <= z < 16 ^ Z.of_nat (S n) ->
    (String.length (hex_digits_fuel fuel z) <= S n)%nat.
Proof.
  induction fuel as [|f IH]; intros z n Hz; cbn [hex_digits_fuel];
    [cbn; lia|].
  rewrite length_append. cbn [String.length].
  destruct (z / 16 =? 0) eqn:E; [cbn; lia|].
  apply Z.eqb_neq in E.
  assert (Hp : 16 ^ Z.of_nat (S n) = 16 * 16 ^ Z.of_nat n)
    by (rewrite Nat2Z.inj_succ; apply Z.pow_succ_r; lia).
  assert (Hq : 0 <= z / 16 < 16 ^ Z.of_nat n).
  { split; [apply Z.div_pos; lia|].
    apply Z.div_lt_upper_bound; lia. }
  destruct n as [|n'].
  - cbn in Hq. lia.
  - specialize (IH (z / 16) n' Hq). lia.
Qed.

Lemma segment_length (z : Z) :
  0 <= z < 65536 -> (String.length (segment z) <= 4)%nat.
Proof.
  intros Hz. unfold segment. destruct (z =? 0); [cbn; lia|].
  unfold hex_digits. apply (hex_digits_fuel_length _ z 3). cbn. lia.
Qed.

(** X11.  With 16-bit registers the module name has at most eight
    characters, four from each register. *)
Theorem module_name_at_most_eight (self : ADAM6XXX) (low high : Z)
  (st : State) :
  0 <= low < 65536 ->
  0 <= high < 65536 ->
  tp_read_input_registers (client self) (log st) (module_name self) 2
  = Ok (mkRegisters [low; high]) ->
  exists s,
    fst (get_module_name self st) = Ok s
    /\ name (snd (get_module_name self st)) = s
    /\ (String.length s <= 8)%nat.
Proof.
  intros Hl Hh Hr.
  rewrite (get_module_name_answered self low high st) by (lia || assumption).
  eexists. split; [reflexivity|]. split; [reflexivity|].
  rewrite length_append.
  pose proof (segment_length low Hl). pose proof (segment_length high Hh).
  lia.
Qed.

Lemma module_name_at_most_eight_witness :
  exists s,
    fst (get_module_name Sim.bench fresh) = Ok s
    /\ name (snd (get_module_name Sim.bench fresh)) = s
    /\ (String.length s <= 8)%nat.
Proof.
  refine (module_name_at_most_eight Sim.bench 65 66 fresh _ _ _).
  - lia.
  - lia.
  - reflexivity.
Defined.

(** X12.  With 16-bit registers the count [get_counter] returns determines
    both registers: the low one is the count modulo 65536, the high one the
    count divided by 65536, so different register pairs give different
    counts. *)
Theorem get_counter_decodes (self : ADAM6XXX) (index a low high : Z)
  (st : State) :
  py_index (counter_registers self) index = Ok a ->
  0 <= low < 65536 ->
  0 <= high < 65536 ->
  tp_read_input_registers (client self) (log st) a 2
  = Ok (mkRegisters [low; high]) ->
  exists n,
    fst (get_counter self index st) = Ok n
    /\ n mod 65536 = low
    /\ n / 65536 = high.
Proof.
  intros Hi Hl Hh Hr. exists (high * 65536 + low). split; [|split].
  - unfold get_counter, bind, lift. now rewrite Hi, call_logged, Hr.
  - rewrite Z.add_comm, Z.mod_add by lia. apply Z.mod_small. lia.
  - rewrite Z.add_comm, Z.div_add by lia. rewrite Z.div_small by lia. lia.
Qed.

Lemma get_counter_decodes_witness :
  exists n,
    fst (get_counter Sim.bench 1 fresh) = Ok n
    /\ n mod 65536 = 5
    /\ n / 65536 = 2.
Proof.
  refine (get_counter_decodes Sim.bench 1 2 5 2 fresh _ _ _ _).
  - reflexivity.
  - lia.
  - lia.
  - reflexivity.
Defined.

(** X13.  Every call of [get_frequency] ends in an exception, for every
    transport, index and state: [IndexError] for an index Python rejects,
    the transport's exception when the read raises, and [TypeError] whenever
    the read is answered, whatever registers it answers with. *)
Theorem get_frequency_always_raises (self : ADAM6XXX) (index : Z)
  (st : State) :
  exists e,
    fst (get_frequency self index st) = Raise e
    /\ (py_index (counter_registers self) index = Raise IndexError ->
        e = IndexError)
    /\ (forall a r,
           py_index (counter_registers self) index = Ok a ->
           tp_read_input_registers (client self) (log st) a 1 = Ok r ->
           e = TypeError)
    /\ (forall a e',
           py_index (counter_registers self) index = Ok a ->
           tp_read_input_registers (client self) (log st) a 1 = Raise e' ->
           e = e').
Proof.
  unfold get_frequency, bind, lift, call.
  destruct (py_index (counter_registers self) index) as [a|e] eqn:Hi.
  - destruct (tp_read_input_registers (client self) (log st) a 1)
      as [r|e] eqn:Hr; cbn [fst truediv_float].
    + exists TypeError. repeat split; try discriminate. 
      intros a' e' [= <-]. congruence.
    + exists e. repeat split; try discriminate.
      * intros a' r [= <-]. congruence.
      * intros a' e' [= <-]. congruence.
  - exists e. cbn [fst]. repeat split; try discriminate. congruence.
Qed.

(** ** Connecting and constructing *)

(** X14.  When the transport's [connect] answers [c] and the
    identification read answers two 16-bit registers, [connect] returns [c]
    and leaves [connected = c] and [name] set to the identification text,
    having issued one connect and one read.  This holds for [c = False]
    too: a reported connection failure is returned, not raised. *)
Theorem connect_stores_identification (self : ADAM6XXX) (c : bool)
  (low high : Z) (st : State) :
  tp_connect (client self) (log st) = Ok c ->
  tp_read_input_registers (client self) (log st ++ [EConnect])
    (module_name self) 2 = Ok (mkRegisters [low; high]) ->
  0 <= low < 65536 ->
  0 <= high < 65536 ->
  connect self st =
  (Ok c,
   {| name := (segment low ++ segment high)%string;
      connected := c;
      log := log st ++ [EConnect; EReadInputRegisters (module_name self) 2]
   |}).
Proof.
  intros Hc Hr Hl Hh. unfold connect.
  unfold bind at 1. rewrite call_logged, Hc.
  unfold bind at 1, set_connected, logged. cbn [name connected log].
  unfold bind at 1.
  rewrite (get_module_name_answered self low high
             {| name := name st; connected := c; log := log st ++ [EConnect] |})
    by (lia || exact Hr).
  unfold get_connected. cbn [name connected log].
  now rewrite <- app_assoc.
Qed.

Lemma connect_stores_identification_witness :
  connect Sim.bench (logged fresh [EReadCoils 16]) =
  (Ok true,
   {| name := "4142"; connected := true;
      log := [EReadCoils 16; EConnect; EReadInputRegisters 210 2] |}).
Proof.
  refine (connect_stores_identification Sim.bench true 65 66
            (logged fresh [EReadCoils 16]) _ _ _ _).
  - reflexivity.
  - reflexivity.
  - lia.
  - lia.
Defined.

(** X15.  Construction asks nothing of the transport unless told to
    connect.  Told to connect, it connects and identifies once; the result
    of [connect] is discarded, so the object is built without an exception
    even when the transport answered that it could not connect, as long as
    the identification read answers; an exception raised by the transport's
    [connect] leaves the constructor. *)
Theorem init_connects_on_request (self : ADAM6XXX) :
  init self false = (Ok tt, fresh)
  /\ (forall c low high,
         tp_connect (client self) [] = Ok c ->
         tp_read_input_registers (client self) [EConnect]
           (module_name self) 2 = Ok (mkRegisters [low; high]) ->
         0 <= low < 65536 ->
         0 <= high < 65536 ->
         init self true =
         (Ok tt,
          {| name := (segment low ++ segment high)%string;
             connected := c;
             log := [EConnect; EReadInputRegisters (module_name self) 2] |}))
  /\ (forall e,
         tp_connect (client self) [] = Raise e ->
         init self true = (Raise e, logged fresh [EConnect])).
Proof.
  split; [reflexivity|]. split.
  - intros c low high Hc Hr Hl Hh. unfold init.
    now rewrite (connect_stores_identification self c low high fresh
                   Hc Hr Hl Hh).
  - intros e He. unfold init, connect, bind, call.
    change (log fresh) with (@nil Event). now rewrite He.
Qed.

Lemma init_connects_on_request_witness :
  init Sim.bench true =
  (Ok tt,
   {| name := "4142"; connected := true;
      log := [EConnect; EReadInputRegisters 210 2] |}).
Proof.
  refine (proj1 (proj2 (init_connects_on_request Sim.bench))
            true 65 66 _ _ _ _).
  - reflexivity.
  - reflexivity.
  - lia.
  - lia.
Defined.

(** ** The two models *)

Lemma set_unverified_log (self : ADAM6XXX) (index a : Z) (state : bool)
  (st : State) :
  py_index (digital_outputs self) index = Ok a ->
  log (snd (set_digital_output self index state false st)) =
  log st ++ [EWriteCoil a state].
Proof.
  intros Hi. unfold set_digital_output, bind, lift, call. rewrite Hi.
  now destruct (tp_write_coil _ _ _ _).
Qed.

Lemma get_digital_input_log (self : ADAM6XXX) (index a : Z) (st : State) :
  py_index (digital_inputs self) index = Ok a ->
  log (snd (get_digital_input self index st)) =
  log st ++ [EReadDiscreteInputs a].
Proof.
  intros Hi. unfold get_digital_input, bind, lift, call. rewrite Hi.
  now destruct (tp_read_discrete_inputs _ _ _).
Qed.

Lemma get_counter_log (self : ADAM6XXX) (index a : Z) (st : State) :
  py_index (counter_registers self) index = Ok a ->
  log (snd (get_counter self index st)) =
  log st ++ [EReadInputRegisters a 2].
Proof.
  intros Hi. unfold get_counter, bind, lift, call. rewrite Hi.
  destruct (tp_read_input_registers _ _ _ _) as [r|e]; [|reflexivity].
  now destruct (unpack2 (registers r)) as [[low high]|e].
Qed.

(** X16.  Both models lay their signals out alike, whatever the
    transport answers: output [i] is coil [16 + i], input [i] is discrete
    input [i], and counter [i] is read from the registers [2 i] and
    [2 i + 1]; the ADAM-6052 has eight of each, the ADAM-6060 six. *)
Theorem models_address_alike (ip : string) (tp : Transport) (i : Z)
  (state : bool) (st : State) :
  (0 <= i < 8 ->
   log (snd (set_digital_output (ADAM6052 ip tp) i state false st))
   = log st ++ [EWriteCoil (16 + i) state]
   /\ log (snd (get_digital_input (ADAM6052 ip tp) i st))
      = log st ++ [EReadDiscreteInputs i]
   /\ log (snd (get_counter (ADAM6052 ip tp) i st))
      = log st ++ [EReadInputRegisters (2 * i) 2])
  /\ (0 <= i < 6 ->
      log (snd (set_digital_output (ADAM6060 ip tp) i state false st))
      = log st ++ [EWriteCoil (16 + i) state]
      /\ log (snd (get_digital_input (ADAM6060 ip tp) i st))
         = log st ++ [EReadDiscreteInputs i]
      /\ log (snd (get_counter (ADAM6060 ip tp) i st))
         = log st ++ [EReadInputRegisters (2 * i) 2])
  /\ (8 <= i ->
      fst (set_digital_output (ADAM6052 ip tp) i state false st)
      = Raise IndexError)
  /\ (6 <= i ->
      fst (set_digital_output (ADAM6060 ip tp) i state false st)
      = Raise IndexError).
Proof.
  split; [|split; [|split]].
  - intros Hi.
    assert (E : i = 0 \/ i = 1 \/ i = 2 \/ i = 3 \/ i = 4 \/ i = 5
                \/ i = 6 \/ i = 7) by lia.
    repeat (destruct E as [-> | E];
            [split; [now apply set_unverified_log
                    |split; [now apply get_digital_input_log
                            |now apply get_counter_log]]|]).
    subst. split; [now apply set_unverified_log
                  |split; [now apply get_digital_input_log
                          |now apply get_counter_log]].
  - intros Hi.
    assert (E : i = 0 \/ i = 1 \/ i = 2 \/ i = 3 \/ i = 4 \/ i = 5) by lia.
    repeat (destruct E as [-> | E];
            [split; [now apply set_unverified_log
                    |split; [now apply get_digital_input_log
                            |now apply get_counter_log]]|]).
    subst. split; [now apply set_unverified_log
                  |split; [now apply get_digital_input_log
                          |now apply get_counter_log]].
  - intros Hi.
    rewrite (set_digital_output_rejects (ADAM6052 ip tp) i state false st);
      [reflexivity|].
    apply py_index_out_of_range. right. cbn. lia.
  - intros Hi.
    rewrite (set_digital_output_rejects (ADAM6060 ip tp) i state false st);
      [reflexivity|].
    apply py_index_out_of_range. right. cbn. lia.
Qed.

Lemma models_address_alike_witness :
  log (snd (get_counter (ADAM6060 "10.0.0.1" Sim.unreachable) 5 fresh))
  = log fresh ++ [EReadInputRegisters (2 * 5) 2].
Proof.
  refine (proj2 (proj2 (proj1 (proj2 (models_address_alike "10.0.0.1"
                   Sim.unreachable 5 true fresh)) _))).
  lia.
Defined.
